(** * Document summarisation pipeline: the fallback client, the text
      extractor and the folder strategies

    A shallow embedding of [ocr_app/clients/openrouter.py],
    [ocr_app/core/extractor.py], [ocr_app/core/strategies/simple.py] and
    [ocr_app/core/strategies/hierarchical.py].

    Python values are modelled as follows.
    - A [str] holding document text, prompts, answers, paths or messages is
      the list of its code points ([str]), so that [len], slicing and the
      [strip] family count characters as Python does.
    - Strategy names and model identifiers are only ever compared and looked
      up in dictionaries; they are Rocq [string]s (their UTF-8 bytes) and the
      class-level dictionaries are [gmap]s keyed by them.
    - [int] is [Z]; the wall clock and the temperature are rationals.
    - An exception is a value; a call that may raise returns [exn + A].
    - The HTTP session, the clock, the file system and the PDF and OCR
      backends are the environment: they are section variables, and the
      client threads the state of the remote side explicitly. *)

From Stdlib Require Import ZArith NArith QArith Lia Lqa.
From stdpp Require Import base option list gmap strings sorting.

Set Default Proof Using "Type".
Local Open Scope Z_scope.

(** ** Python strings *)

Module PyStr.

(** A Python [str]: the sequence of its Unicode code points. *)
Definition str : Type := list N.

(** Source literals are written as UTF-8 string literals and decoded. *)
Fixpoint utf8_decode (bs : list N) : str :=
  match bs with
  | [] => []
  | b :: r =>
      if (b <? 128)%N then b :: utf8_decode r
      else if (b <? 224)%N then
        match r with
        | c1 :: r1 => ((b - 192) * 64 + (c1 - 128))%N :: utf8_decode r1
        | [] => []
        end
      else if (b <? 240)%N then
        match r with
        | c1 :: c2 :: r2 =>
            ((b - 224) * 4096 + (c1 - 128) * 64 + (c2 - 128))%N
              :: utf8_decode r2
        | _ => []
        end
      else
        match r with
        | c1 :: c2 :: c3 :: r3 =>
            ((b - 240) * 262144 + (c1 - 128) * 4096
             + (c2 - 128) * 64 + (c3 - 128))%N :: utf8_decode r3
        | _ => []
        end
  end.

Fixpoint bytes_of (s : string) : list N :=
  match s with
  | EmptyString => []
  | String a r => Ascii.N_of_ascii a :: bytes_of r
  end.

Definition u (s : string) : str := utf8_decode (bytes_of s).

Definition nl : str := [10%N].

(** [len(s)] *)
Definition len (s : str) : Z := Z.of_nat (length s).

(** Truthiness of a string: [bool(s)]. *)
Definition truthy (s : str) : bool :=
  match s with [] => false | _ :: _ => true end.

(** [s[:k]] with Python's treatment of a negative bound. *)
Definition slice_to (k : Z) (s : str) : str :=
  if k <? 0 then take (Z.to_nat (len s + k)) s else take (Z.to_nat k) s.

(** [s[k:]] with Python's treatment of a negative bound. *)
Definition slice_from (k : Z) (s : str) : str :=
  if k <? 0 then drop (Z.to_nat (len s + k)) s else drop (Z.to_nat k) s.

(** [c in chars] for a character. *)
Definition mem (c : N) (chars : str) : bool :=
  existsb (N.eqb c) chars.

(** [s.lstrip(chars)]: drops leading characters as long as they belong
    to the set of characters of [chars]. *)
Fixpoint lstrip_chars (chars : str) (s : str) : str :=
  match s with
  | [] => []
  | c :: r => if mem c chars then lstrip_chars chars r else s
  end.

(** [str.isspace] on one character (the code points CPython treats as
    white space). *)
Definition is_space (c : N) : bool :=
  ((9 <=? c) && (c <=? 13) || (28 <=? c) && (c <=? 32)
   || (c =? 133) || (c =? 160) || (c =? 5760)
   || (8192 <=? c) && (c <=? 8202)
   || (c =? 8232) || (c =? 8233) || (c =? 8239) || (c =? 8287)
   || (c =? 12288))%N.

Fixpoint lstrip (s : str) : str :=
  match s with
  | [] => []
  | c :: r => if is_space c then lstrip r else s
  end.

Definition rstrip (s : str) : str := reverse (lstrip (reverse s)).

(** [s.strip()] *)
Definition strip (s : str) : str := rstrip (lstrip s).

(** [p] is a prefix of [s], as a boolean. *)
Fixpoint starts_with (p s : str) : bool :=
  match p, s with
  | [], _ => true
  | a :: p', b :: s' => (a =? b)%N && starts_with p' s'
  | _ :: _, [] => false
  end.

(** [needle in hay] *)
Fixpoint contains (needle hay : str) : bool :=
  starts_with needle hay
  || match hay with
     | [] => false
     | _ :: r => contains needle r
     end.

(** [str(n)] for a non-negative integer: its decimal digits. *)
Fixpoint digits (fuel : nat) (n : N) (acc : str) : str :=
  match fuel with
  | O => acc
  | S f =>
      let acc' := (48 + n mod 10)%N :: acc in
      if (n <? 10)%N then acc' else digits f (n / 10)%N acc'
  end.

Definition of_N (n : N) : str := digits (S (N.to_nat (N.log2 n))) n [].

Definition of_Z (z : Z) : str :=
  if z <? 0 then 45%N :: of_N (Z.to_N (- z)) else of_N (Z.to_N z).

(** ['%#x' % n] for a non-negative integer: ["0x"] and its hexadecimal
    digits in lower case. *)
Definition hex_digit (d : N) : N :=
  if (d <? 10)%N then (48 + d)%N else (87 + d)%N.

Fixpoint hex_digits (fuel : nat) (n : N) (acc : str) : str :=
  match fuel with
  | O => acc
  | S f =>
      let acc' := hex_digit (n mod 16) :: acc in
      if (n <? 16)%N then acc' else hex_digits f (n / 16)%N acc'
  end.

Definition hex_of_N (n : N) : str :=
  [48; 120]%N ++ hex_digits (S (N.to_nat (N.log2 n))) n [].

(** [s.lower()] on the ASCII letters; other code points are kept. *)
Definition lower (s : str) : str :=
  map (fun c => if ((65 <=? c) && (c <=? 90))%N then (c + 32)%N else c) s.

End PyStr.

Import PyStr.

Example u_cyrillic : u "Саммари:" = [1057; 1072; 1084; 1084; 1072; 1088; 1080; 58]%N.
Proof. reflexivity. Qed.

Example of_Z_404 : of_Z 404 = u "404".
Proof. reflexivity. Qed.

Example hex_of_N_address : hex_of_N 139896381197456 = u "0x7f3c2a1b4c90".
Proof. reflexivity. Qed.

(** ** Exceptions *)

(** The exception classes the code distinguishes.  [RequestException]
    is [requests.exceptions.RequestException] itself, the class that
    [_request] raises for the statuses it singles out; [HTTPError] is
    the subclass raised by [raise_for_status]; [RequestSubclass name] is
    any other subclass of it, by its class name (["ConnectionError"],
    ["ReadTimeout"], ["JSONDecodeError"], ...), as the session raises
    them. *)
Inductive exn_class : Type :=
| RequestException
| HTTPError
| RequestSubclass (name : str)
| TimeoutError
| ValueError
| KeyError
| IndexError
| OtherException.

(** An exception value.  [RetryError] is what the retrying decorator
    raises once its attempts are used up; it wraps the last failure. *)
Inductive exn : Type :=
| Raised (cls : exn_class) (msg : str)
| RetryError (last_attempt : exn).

Definition class_name (c : exn_class) : str :=
  match c with
  | RequestException => u "RequestException"
  | HTTPError => u "HTTPError"
  | RequestSubclass name => name
  | TimeoutError => u "TimeoutError"
  | ValueError => u "ValueError"
  | KeyError => u "KeyError"
  | IndexError => u "IndexError"
  | OtherException => u "Exception"
  end.

Definition exn_class_name (e : exn) : str :=
  match e with
  | Raised c _ => class_name c
  | RetryError _ => u "RetryError"
  end.

(** [id(future)] of the [Future] in which the retrying decorator keeps
    the outcome of the last attempt.  The interpreter chooses it, and it
    differs from run to run: everything below holds for every choice. *)
Class FutureIds : Type := { future_id : exn -> N }.

(** [str(e)].  A [RetryError] prints its last attempt, a [Future]:
    ["RetryError[<Future at 0x... state=finished raised C>]"], with the
    address of the [Future] and the name [C] of the class of the wrapped
    exception, and without the message of that exception. *)
Definition str_exn {ids : FutureIds} (e : exn) : str :=
  match e with
  | Raised _ msg => msg
  | RetryError last =>
      u "RetryError[<Future at " ++ hex_of_N (future_id last)
        ++ u " state=finished raised " ++ exn_class_name last ++ u ">]"
  end.

(** [retry_if_exception_type((RequestException, TimeoutError))] *)
Definition retry_if_exception_type (e : exn) : bool :=
  match e with
  | Raised RequestException _ | Raised HTTPError _
  | Raised (RequestSubclass _) _ | Raised TimeoutError _ => true
  | _ => false
  end.

(** ** The remote backend as seen through the HTTP session *)

(** What [response.json()] and the reading of
    [result["choices"][0]["message"]["content"]] can do. *)
Inductive json_result : Type :=
| JsonRaises (e : exn)            (* [response.json()] raises *)
| JsonNoChoices (repr : str)      (* no ["choices"], or an empty one *)
| JsonBadShape (e : exn)          (* reading the first choice raises *)
| JsonContent (content : str).    (* the text of the first choice *)

Record Response : Type := mkResponse {
  status_code : Z;
  reason : str;
  text : str;
  json : json_result
}.

Inductive post_result : Type :=
| PostRaises (e : exn)
| PostReturns (r : Response).

Record Payload : Type := mkPayload {
  p_model : string;
  p_content : str;
  p_temperature : Q;
  p_max_tokens : Z
}.

Definition endpoint : str := u "https://openrouter.ai/api/v1/chat/completions".

(** [response.raise_for_status()]: the exception it raises, if any. *)
Definition raise_for_status (r : Response) : option exn :=
  if (400 <=? status_code r) && (status_code r <? 500) then
    Some (Raised HTTPError
            (of_Z (status_code r) ++ u " Client Error: " ++ reason r
               ++ u " for url: " ++ endpoint))
  else if (500 <=? status_code r) && (status_code r <? 600) then
    Some (Raised HTTPError
            (of_Z (status_code r) ++ u " Server Error: " ++ reason r
               ++ u " for url: " ++ endpoint))
  else None.

(** ** Result structures *)

Record Metadata : Type := mkMetadata {
  md_fallback_used : bool;
  md_truncated : bool;
  md_tokens_input : option Z;
  md_tokens_output : option Z;
  md_attempted_models : option (list string)
}.

Record ModelRequestOutcome : Type := mkOutcome {
  summary : option str;
  model_used : string;
  success : bool;
  fallback_used : bool;
  metadata : Metadata;
  error : option str
}.

(** An optional string inside an f-string. *)
Definition fmt_opt (o : option str) : str :=
  match o with
  | Some s => s
  | None => u "None"
  end.

(** ** The fallback client ([OpenRouterClient]) *)

Definition MODEL_HIERARCHY : gmap string (list string) :=
  {[ "premium" := ["nousresearch/hermes-3-llama-3.1-405b:free"];
     "balanced" := ["mistralai/mistral-7b-instruct:nitro"];
     "fast" := ["mistralai/mistral-7b-instruct:nitro";
                "google/gemma-2-9b-it:free"] ]}.

Definition MODEL_CONTEXT_LIMITS : gmap string Z :=
  {[ "meta-llama/llama-3.3-70b-instruct:free" := 100000;
     "meta-llama/llama-3.2-3b-instruct:free" := 100000;
     "google/gemma-3n-e4b-it:free" := 6000;
     "deepseek/deepseek-r1-0528:free" := 100000;
     "mistralai/mistral-7b-instruct:nitro" := 28000 ]}.

(** The attributes of a client instance that [summarize] reads.  The two
    dictionaries are class attributes; an instance sees the ones above
    unless they are overridden. *)
Record Client : Type := mkClient {
  hierarchy : gmap string (list string);
  context_limits : gmap string Z;
  default_strategy : string;
  request_delay : Q
}.

Definition OpenRouterClient (default_strategy : string) (request_delay : Q)
  : Client :=
  mkClient MODEL_HIERARCHY MODEL_CONTEXT_LIMITS default_strategy request_delay.

Definition omission_marker : str :=
  nl ++ nl ++ u "[... ПРОПУЩЕНО ИЗ-ЗА ОГРАНИЧЕНИЯ КОНТЕКСТА ...]" ++ nl ++ nl.

(** The context guard of [summarize]: the text that goes into the prompt
    and the [truncated] flag.  [int(context_limit * 0.6)] is the integer
    part of three fifths of the limit (the floating-point product is
    close enough to it for every integer limit below 2^50). *)
Definition truncate_text (context_limit : Z) (text : str) : str * bool :=
  if len text >? context_limit then
    let keep_start := Z.min 15000 (Z.quot (context_limit * 3) 5) in
    let keep_end := context_limit - keep_start - 100 in
    (slice_to keep_start text ++ omission_marker
       ++ slice_from (- keep_end) text, true)
  else (text, false).

Definition prompt_head : str :=
  u "Ты — эксперт по анализу документов на русском языке." ++ nl
  ++ u "Текст может содержать артефакты распознавания: разорванные слова, лишние символы (|, #), опечатки." ++ nl
  ++ nl
  ++ u "Задача:" ++ nl
  ++ u "1. Проигнорируй мусорные символы и артефакты" ++ nl
  ++ u "2. Восстанови смысл там, где это возможно" ++ nl
  ++ u "3. Создай краткое саммари на русском языке" ++ nl
  ++ u "4. Выдели ключевые факты: даты, суммы, стороны, предмет документа" ++ nl
  ++ u "5. Ответ должен содержать ТОЛЬКО саммари, без вводных фраз" ++ nl
  ++ nl
  ++ u "Текст:" ++ nl.

Definition prompt_tail : str := nl ++ nl ++ u "Саммари:".

Definition _prepare_prompt (text : str) : str :=
  prompt_head ++ text ++ prompt_tail.

(** The post-processing of a model's answer in [summarize]. *)
Definition clean_summary (answer : str) : str :=
  strip (lstrip_chars (u "Summary:") (lstrip_chars (u "Саммари:") answer)).

(** [strategy or self.default_strategy] *)
Definition effective_strategy (c : Client) (strategy : option string) : string :=
  match strategy with
  | Some s => if decide (s = "") then default_strategy c else s
  | None => default_strategy c
  end.

(** [wait_exponential(multiplier=1, min=8, max=20)] after attempt [k]. *)
Definition wait_exponential (attempt_number : nat) : Z :=
  Z.max 8 (Z.min (2 ^ (Z.of_nat attempt_number - 1)) 20).

(** The first lines of [summarize], up to the prompt: the models to try,
    the prepared prompt and the [truncated] flag.  [inl e] is a raised
    exception: the default of [.get] is evaluated before the lookup, and
    [models_to_try[0]] needs a first element. *)
Definition summarize_setup (self : Client) (text : str)
    (strategy : option string) : exn + (list string * str * bool) :=
  let strategy := effective_strategy self strategy in
  match hierarchy self !! "balanced" with
  | None => inl (Raised KeyError (u "'balanced'"))
  | Some balanced =>
      let models_to_try := default balanced (hierarchy self !! strategy) in
      match models_to_try with
      | [] => inl (Raised IndexError (u "list index out of range"))
      | first :: _ =>
          let context_limit :=
            default 25000 (context_limits self !! first) in
          let '(text', truncated) := truncate_text context_limit text in
          inr (models_to_try, _prepare_prompt text', truncated)
      end
  end.

(** What the [try] block of [_request] makes of the outcome of
    [session.post]: the exception it raises ([except Exception] logs and
    re-raises) or the answer it returns. *)
Definition response_result (r : post_result) : exn + str :=
  match r with
  | PostRaises e => inl e
  | PostReturns response =>
      if status_code response =? 429 then
        inl (Raised RequestException (u "Rate limit (429)"))
      else if status_code response =? 402 then
        inl (Raised RequestException (u "Credit limit exceeded (402)"))
      else if (status_code response =? 400)
              && contains (u "not a valid model ID") (text response) then
        inl (Raised RequestException (u "Invalid model ID (400)"))
      else
        match (if status_code response >=? 400
               then raise_for_status response else None) with
        | Some e => inl e
        | None =>
            match json response with
            | JsonRaises e => inl e
            | JsonNoChoices repr =>
                inl (Raised ValueError
                       (u "Некорректный ответ API: " ++ repr))
            | JsonBadShape e => inl e
            | JsonContent content => inr (strip content)
            end
        end
  end.

(** A small state monad for code that talks to the outside world; it is
    used through stdpp's monadic notations [x ← m; k] and [m;; k]. *)
Definition State (S A : Type) : Type := S -> A * S.

Definition ret {S A : Type} (a : A) : State S A := fun s => (a, s).

Definition bind {S A B : Type} (m : State S A) (k : A -> State S B)
  : State S B :=
  fun s => let (a, s') := m s in k a s'.

#[global] Instance State_ret {S : Type} : MRet (State S) :=
  fun A a => ret a.
#[global] Instance State_bind {S : Type} : MBind (State S) :=
  fun A B k m => bind m k.

Section ClientCode.

Context {ids : FutureIds}.

(** The remote side: [W] is its state, [session_post] is
    [self.session.post(...)], [time] is [time.time()] and [sleep] is
    [time.sleep]. *)
Context {W : Type}.
Variable session_post : Payload -> W -> post_result * W.
Variable time : W -> Q.
Variable sleep : Q -> W -> W.

(** The mutable part of a client together with the world it talks to.
    [sent] records every payload handed to [session.post], oldest
    first. *)
Record ClientState : Type := mkClientState {
  world : W;
  last_request_time : Q;
  sent : list Payload
}.

Variable self : Client.

Definition _enforce_rate_limit : State ClientState unit :=
  fun s =>
    let elapsed := (time (world s) - last_request_time s)%Q in
    let w :=
      if negb (Qle_bool (request_delay self) elapsed)
      then sleep (request_delay self - elapsed)%Q (world s)
      else world s in
    (tt, mkClientState w (time w) (sent s)).

Definition post (payload : Payload) : State ClientState post_result :=
  fun s =>
    let (r, w) := session_post payload (world s) in
    (r, mkClientState w (last_request_time s) (sent s ++ [payload])).

Definition pause (seconds : Q) : State ClientState unit :=
  fun s =>
    (tt, mkClientState (sleep seconds (world s)) (last_request_time s)
           (sent s)).

(** The body of [_request]: one attempt. *)
Definition _request_attempt (prompt : str) (model : string)
    (temperature : Q) : State ClientState (exn + str) :=
  _enforce_rate_limit;;
  r ← post (mkPayload model prompt temperature 1500);
  ret (response_result r).

(** The [@retry] decorator: [retries] further attempts are allowed after
    attempt number [attempt_number]. *)
Fixpoint retrying {A : Type} (retries : nat) (attempt_number : nat)
    (body : State ClientState (exn + A)) : State ClientState (exn + A) :=
  r ← body;
  match r with
  | inr a => ret (inr a)
  | inl e =>
      if retry_if_exception_type e then
        match retries with
        | O => ret (inl (RetryError e))
        | S n =>
            pause (inject_Z (wait_exponential attempt_number));;
            retrying n (S attempt_number) body
        end
      else ret (inl e)
  end.

(** [_request], decorated with [stop_after_attempt(2)]. *)
Definition _request (prompt : str) (model : string) (temperature : Q)
  : State ClientState (exn + str) :=
  retrying 1 1 (_request_attempt prompt model temperature).

(** The outcome returned from inside the loop of [summarize]. *)
Definition success_outcome (prompt : str) (truncated : bool) (i : nat)
    (model : string) (answer : str) : ModelRequestOutcome :=
  let summary := clean_summary answer in
  mkOutcome (Some summary) model true (0 <? Z.of_nat i)
    (mkMetadata (0 <? Z.of_nat i) truncated
       (Some (len prompt / 4)) (Some (len summary / 4)) None)
    None.

(** The outcome returned after the loop of [summarize]. *)
Definition failure_outcome (truncated : bool) (models_to_try : list string)
    (last_error : option str) : ModelRequestOutcome :=
  mkOutcome None
    (match models_to_try with m :: _ => m | [] => "unknown" end)
    false true
    (mkMetadata true truncated None None (Some models_to_try))
    (Some (u "Все модели недоступны. Последняя ошибка: "
             ++ fmt_opt last_error)).

(** The loop [for i, model in enumerate(models_to_try)] of [summarize],
    from index [i] on, followed by the code after the loop. *)
Fixpoint try_models (prompt : str) (temperature : Q) (truncated : bool)
    (models_to_try : list string) (i : nat) (rest : list string)
    (last_error : option str) : State ClientState ModelRequestOutcome :=
  match rest with
  | [] => ret (failure_outcome truncated models_to_try last_error)
  | model :: rest' =>
      r ← _request prompt model temperature;
      match r with
      | inr answer =>
          ret (success_outcome prompt truncated i model answer)
      | inl e =>
          try_models prompt temperature truncated models_to_try (S i)
            rest' (Some (str_exn e))
      end
  end.

(** [summarize(text, strategy=strategy, temperature=temperature)].  The
    result is [inl e] when the call raises [e]. *)
Definition summarize (text : str) (strategy : option string)
    (temperature : Q) : State ClientState (exn + ModelRequestOutcome) :=
  match summarize_setup self text strategy with
  | inl e => ret (inl e)
  | inr (models_to_try, prompt, truncated) =>
      o ← try_models prompt temperature truncated models_to_try 0
            models_to_try None;
      ret (inr o)
  end.

(** The exceptions raised by [_request] for each of [models] in turn,
    and the state reached, provided every one of these requests fails. *)
Fixpoint fail_all (prompt : str) (temperature : Q) (models : list string)
    (s : ClientState) : option (list exn * ClientState) :=
  match models with
  | [] => Some ([], s)
  | model :: rest =>
      match _request prompt model temperature s with
      | (inl e, s1) =>
          match fail_all prompt temperature rest s1 with
          | Some (errors, s2) => Some (e :: errors, s2)
          | None => None
          end
      | (inr _, _) => None
      end
  end.

End ClientCode.

(** ** The text extractor ([DocumentExtractor]) *)

Inductive level : Type := DEBUG | INFO | WARNING | ERROR.

(** [self.logger.<level>(...)]: the extractor's diagnostics, oldest first. *)
Definition logged (l : level) : State (list level) unit :=
  fun log => (tt, log ++ [l]).

(** What [pdfplumber] does with a file: opening it raises, or it yields
    pages whose [extract_text()] raises or returns a text (or [None]). *)
Inductive pdf_file : Type :=
| PdfOpenRaises (e : exn)
| PdfPages (pages : list (exn + option str)).

(** What [PIL] and [pytesseract] do with a file: opening it raises, or it
    yields an image of some mode; pasting it on a white background may
    raise, and so may the recognition. *)
Record image : Type := mkImage {
  img_mode : string;
  img_composite : option exn;
  image_to_string : str -> exn + str
}.

Definition SUPPORTED_IMAGE_EXTS : list str :=
  [u ".jpg"; u ".jpeg"; u ".webp"; u ".png"; u ".bmp"; u ".tiff"].

Definition SUPPORTED_PDF_EXTS : list str := [u ".pdf"].

(** [ext in exts] for a set of strings. *)
Definition ext_in (ext : str) (exts : list str) : bool :=
  bool_decide (ext ∈ exts).

Section ExtractorCode.

(** The file system and the two backends. [path_exists] is
    [Path(p).exists()] and [path_suffix] is [Path(p).suffix]. *)
Variable path_exists : str -> bool.
Variable path_suffix : str -> str.
Variable pdfplumber_open : str -> pdf_file.
Variable Image_open : str -> exn + image.

Variable ocr_lang : str.

(** The page loop of [_extract_pdf]: the text gathered so far and the
    exception that stopped the loop, if any. *)
Fixpoint pdf_pages (page_num : Z) (pages : list (exn + option str))
    (text : str) : str * option exn :=
  match pages with
  | [] => (text, None)
  | inl e :: _ => (text, Some e)
  | inr page_text :: rest =>
      let text' :=
        match page_text with
        | Some t =>
            if truthy t then
              text ++ nl ++ u "--- Страница " ++ of_Z page_num ++ u " ---"
                ++ nl ++ t ++ nl
            else text
        | None => text
        end in
      pdf_pages (page_num + 1) rest text'
  end.

Definition _extract_pdf (path : str) : State (list level) (exn + str) :=
  match pdfplumber_open path with
  | PdfOpenRaises e => logged ERROR;; ret (inr (strip []))
  | PdfPages pages =>
      let '(text, stopped) := pdf_pages 1 pages [] in
      match stopped with
      | None => logged INFO;; ret (inr (strip text))
      | Some e => logged ERROR;; ret (inr (strip text))
      end
  end.

Definition _extract_image (path : str) : State (list level) (exn + str) :=
  match Image_open path with
  | inl e => logged ERROR;; ret (inr [])
  | inr img =>
      let pasted :=
        if bool_decide (img_mode img ∈ ["RGBA"; "LA"; "P"])
        then img_composite img else None in
      match pasted with
      | Some e => logged ERROR;; ret (inr [])
      | None =>
          match image_to_string img ocr_lang with
          | inl e => logged ERROR;; ret (inr [])
          | inr text => logged INFO;; ret (inr (strip text))
          end
      end
  end.

(** [extract_file(file_path)]: [inl e] is a raised exception. *)
Definition extract_file (file_path : str) : State (list level) (exn + str) :=
  if negb (path_exists file_path) then
    logged WARNING;; ret (inr [])
  else
    let ext := lower (path_suffix file_path) in
    r ← (if ext_in ext SUPPORTED_PDF_EXTS then _extract_pdf file_path
         else if ext_in ext SUPPORTED_IMAGE_EXTS then _extract_image file_path
         else logged INFO;; ret (inr []));
    match r with
    | inl e => logged ERROR;; ret (inr [])
    | inr text => ret (inr text)
    end.

Definition supported_extensions : list str :=
  SUPPORTED_IMAGE_EXTS ++ SUPPORTED_PDF_EXTS.

End ExtractorCode.

(** ** The folder strategies *)

Inductive Status : Type := StatusSuccess | StatusEmpty | StatusError.

#[global] Instance Status_eq_dec : EqDecision Status.
Proof. solve_decision. Defined.

(** The per-file dictionary.  A key that the code leaves out is [None];
    the value of ["error"] may itself be Python's [None]. *)
Record FileSummary : Type := mkFileSummary {
  fs_file : str;
  fs_status : Status;
  fs_summary : option str;
  fs_model_used : option string;
  fs_original_length : Z;
  fs_summary_length : Z;
  fs_error : option (option str);
  fs_metadata : option Metadata
}.

(** The ["metadata"] of a folder result; the wall-clock
    [processing_time] is not part of the model. *)
Record FolderMetadata : Type := mkFolderMetadata {
  strategy : string;
  strategy_description : str;
  folder : str;
  total_files : Z;
  processed : Z;
  failed : list str
}.

Record FolderSummaryResult : Type := mkFolderSummaryResult {
  overview : option str;
  file_summaries : list FileSummary;
  folder_metadata : FolderMetadata
}.

(** A regular file found by [folder.glob(pattern)], with what [pathlib]
    says about it. *)
Record File : Type := mkFile {
  f_path : str;          (* [str(file_path)] *)
  f_relative : str;      (* [str(file_path.relative_to(folder))] *)
  f_suffix : str         (* [file_path.suffix] *)
}.

(** [sum(1 for s in file_summaries if s["status"] == "success")] *)
Definition count_success (file_summaries : list FileSummary) : Z :=
  Z.of_nat
    (length (filter (fun s => fs_status s = StatusSuccess) file_summaries)).

(** Truthiness of an optional string: [None] and the empty string are
    false. *)
Definition truthy_opt (o : option str) : bool :=
  match o with
  | Some s => truthy s
  | None => false
  end.

Section StrategyCode.

(** The collaborators of a strategy.  The extractor and the client are
    protocol objects: [extract_file] returns a string and
    [client.summarize] returns an outcome; both may change the state [S]
    of the outside world.  [folder_is_dir] is
    [folder.exists() and folder.is_dir()], [glob] lists the regular
    files that [folder.glob(pattern)] yields for the recursive or the
    flat pattern, in traversal order. *)
Context {S : Type}.
Variable extractor_extract_file : str -> State S str.
Variable extractor_supported_extensions : list str.
Variable client_summarize : str -> Q -> State S ModelRequestOutcome.
Variable folder_is_dir : str -> bool.
Variable glob : str -> bool -> list File.
Variable path_name : str -> str.
Variable sleep : Q -> S -> S.

(** The world, and the calls made to [client.summarize] so far (text
    and temperature, oldest first). *)
Record StrategyState : Type := mkStrategyState {
  env : S;
  calls : list (str * Q)
}.

Definition extract (path : str) : State StrategyState str :=
  fun s =>
    let (t, e) := extractor_extract_file path (env s) in
    (t, mkStrategyState e (calls s)).

Definition call_client (text : str) (temperature : Q)
  : State StrategyState ModelRequestOutcome :=
  fun s =>
    let (r, e) := client_summarize text temperature (env s) in
    (r, mkStrategyState e (calls s ++ [(text, temperature)])).

Definition time_sleep (seconds : Q) : State StrategyState unit :=
  fun s => (tt, mkStrategyState (sleep seconds (env s)) (calls s)).

(** [_summarize_single_file], the same text in both strategies. *)
Definition _summarize_single_file (file_path : File)
  : State StrategyState FileSummary :=
  text ← extract (f_path file_path);
  if negb (truthy (strip text)) then
    ret (mkFileSummary (f_path file_path) StatusEmpty None None 0 0
           None None)
  else
    result ← call_client text (3 # 10)%Q;
    if success result && truthy_opt (summary result) then
      ret (mkFileSummary (f_path file_path) StatusSuccess
             (summary result) (Some (model_used result))
             (len text) (len (default [] (summary result)))
             None (Some (metadata result)))
    else
      ret (mkFileSummary (f_path file_path) StatusError None None
             (len text) 0 (Some (error result)) (Some (metadata result))).

(** The target files of [summarize_folder]. *)
Definition target_files (folder_path : str) (recursive : bool) : list File :=
  filter (fun f => lower (f_suffix f) ∈ extractor_supported_extensions)
    (glob folder_path recursive).

(** The loop [for i, file_path in enumerate(target_files, 1)], the same
    text in both strategies; [total] is [len(target_files)]. *)
Fixpoint files_loop (pause_between_files : Q) (total : Z) (i : Z)
    (files : list File) (file_summaries : list FileSummary)
    (failed_files : list str)
  : State StrategyState (list FileSummary * list str) :=
  match files with
  | [] => ret (file_summaries, failed_files)
  | file_path :: rest =>
      summary ← _summarize_single_file file_path;
      let file_summaries := file_summaries ++ [summary] in
      let failed_files :=
        if decide (fs_status summary ≠ StatusSuccess)
        then failed_files ++ [f_relative file_path] else failed_files in
      (if (i <? total) && negb (Qle_bool pause_between_files 0)
       then time_sleep pause_between_files else ret tt);;
      files_loop pause_between_files total (i + 1) rest file_summaries
        failed_files
  end.

(** *** The simple strategy *)

Definition simple_name : string := "simple".

Definition simple_description : str :=
  u "Простая суммаризация: каждый файл суммаризируется отдельно. "
  ++ u "Общий обзор папки НЕ создаётся — возвращается только список саммари по файлам.".

Definition simple_build_empty_result (folder : str) : FolderSummaryResult :=
  mkFolderSummaryResult None []
    (mkFolderMetadata simple_name simple_description folder 0 0 []).

Definition simple_build_result (folder : str)
    (file_summaries : list FileSummary) (failed_files : list str)
  : FolderSummaryResult :=
  let successful_count := count_success file_summaries in
  mkFolderSummaryResult None file_summaries
    (mkFolderMetadata simple_name simple_description folder
       (Z.of_nat (length file_summaries)) successful_count failed_files).

(** [SimpleSummarizationStrategy.summarize_folder] *)
Definition simple_summarize_folder (folder_path : str) (recursive : bool)
    (pause_between_files : Q)
  : State StrategyState (exn + FolderSummaryResult) :=
  if negb (folder_is_dir folder_path) then
    ret (inl (Raised ValueError (u "Папка не найдена: " ++ folder_path)))
  else
    let target_files := target_files folder_path recursive in
    match target_files with
    | [] => ret (inr (simple_build_empty_result folder_path))
    | _ :: _ =>
        '(file_summaries, failed_files) ←
          files_loop pause_between_files
            (Z.of_nat (length target_files)) 1 target_files [] [];
        ret (inr (simple_build_result folder_path file_summaries
                    failed_files))
    end.

(** *** The hierarchical strategy *)

Definition hierarchical_name : string := "hierarchical".

Definition hierarchical_description : str :=
  u "Иерархическая суммаризация: каждый файл суммаризируется отдельно, "
  ++ u "затем все саммари агрегируются в единый обзор содержимого папки.".

(** The successful summaries that [_aggregate_summaries] keeps. *)
Definition successful_summaries (file_summaries : list FileSummary)
  : list FileSummary :=
  filter (fun s => fs_status s = StatusSuccess
                   ∧ truthy_opt (fs_summary s) = true) file_summaries.

(** The lines added to [aggregation_text] by
    [for i, summary in enumerate(successful, 1)], from number [i] on. *)
Fixpoint aggregation_entries (i : Z) (successful : list FileSummary) : str :=
  match successful with
  | [] => []
  | summary :: rest =>
      (u "Документ " ++ of_Z i ++ u " (" ++ path_name (fs_file summary)
         ++ u "):" ++ nl ++ fmt_opt (fs_summary summary) ++ nl ++ nl)
        ++ aggregation_entries (i + 1) rest
  end.

Definition aggregation_text (successful : list FileSummary) : str :=
  u "Саммари отдельных документов:" ++ nl ++ nl
    ++ aggregation_entries 1 successful.

Definition aggregation_failed (result : ModelRequestOutcome) : str :=
  u "Не удалось создать общий обзор." ++ nl
    ++ u "Причина: " ++ fmt_opt (error result).

Definition _aggregate_summaries (file_summaries : list FileSummary)
  : State StrategyState (option str) :=
  let successful := successful_summaries file_summaries in
  match successful with
  | [] => ret None
  | _ :: _ =>
      result ← call_client (aggregation_text successful) (4 # 10)%Q;
      if success result && truthy_opt (summary result) then
        ret (summary result)
      else ret (Some (aggregation_failed result))
  end.

Definition hierarchical_build_empty_result (folder : str)
  : FolderSummaryResult :=
  mkFolderSummaryResult
    (Some (u "В папке не найдено поддерживаемых документов (.pdf, .jpg, .webp и др.)"))
    []
    (mkFolderMetadata hierarchical_name hierarchical_description folder
       0 0 []).

Definition hierarchical_build_result (folder : str)
    (file_summaries : list FileSummary) (overview : option str)
    (failed_files : list str) : FolderSummaryResult :=
  let successful_count := count_success file_summaries in
  mkFolderSummaryResult overview file_summaries
    (mkFolderMetadata hierarchical_name hierarchical_description folder
       (Z.of_nat (length file_summaries)) successful_count failed_files).

(** [HierarchicalSummarizationStrategy.summarize_folder], for an
    instance whose [min_files_for_aggregation] is the first argument. *)
Definition hierarchical_summarize_folder (min_files_for_aggregation : Z)
    (folder_path : str) (recursive : bool) (pause_between_files : Q)
  : State StrategyState (exn + FolderSummaryResult) :=
  if negb (folder_is_dir folder_path) then
    ret (inl (Raised ValueError (u "Папка не найдена: " ++ folder_path)))
  else
    let target_files := target_files folder_path recursive in
    match target_files with
    | [] => ret (inr (hierarchical_build_empty_result folder_path))
    | _ :: _ =>
        '(file_summaries, failed_files) ←
          files_loop pause_between_files
            (Z.of_nat (length target_files)) 1 target_files [] [];
        overview ←
          (if count_success file_summaries >=? min_files_for_aggregation
           then _aggregate_summaries file_summaries
           else ret None);
        ret (inr (hierarchical_build_result folder_path file_summaries
                    overview failed_files))
    end.

End StrategyCode.

(** ** Scripted collaborators for worked examples *)

(** A backend that answers the successive calls of [session.post] from a
    script, and refuses the connection once the script is used up. *)
Definition scripted_post (p : Payload) (script : list post_result)
  : post_result * list post_result :=
  match script with
  | [] => (PostRaises (Raised RequestException (u "Connection refused")), [])
  | r :: script' => (r, script')
  end.

Definition frozen_clock (script : list post_result) : Q := 0%Q.

Definition no_sleep (seconds : Q) (script : list post_result)
  : list post_result := script.

Definition fresh (script : list post_result)
  : ClientState (W := list post_result) :=
  mkClientState script 0%Q [].

(** The address that the worked examples give to every [Future]. *)
Definition example_future_ids : FutureIds :=
  {| future_id := fun _ => 139896381197456%N |}.

#[global] Existing Instance example_future_ids.

(** A call of [summarize] on a new client in front of a scripted backend. *)
Definition run_summarize {ids : FutureIds} (self : Client) (text : str)
    (strategy : option string) (temperature : Q) (script : list post_result)
  : (exn + ModelRequestOutcome) * ClientState :=
  summarize scripted_post frozen_clock no_sleep self text strategy
    temperature (fresh script).

Definition answers (content : str) : post_result :=
  PostReturns (mkResponse 200 (u "OK") [] (JsonContent content)).

Definition refuses (status : Z) (reason body : str) : post_result :=
  PostReturns (mkResponse status reason body (JsonNoChoices (u "{}"))).

(** A client whose only strategy lists the models [models] and whose first
    model has the context budget [limit]. *)
Definition client_with (models : list string) (limit : Z) : Client :=
  mkClient {[ "balanced" := models ]}
    (match models with
     | first :: _ => {[ first := limit ]}
     | [] => ∅
     end)
    "balanced" 5%Q.


(** ** The list of available models *)

(** The order of [sorted] on identifiers: code point by code point, which
    on UTF-8 is byte by byte. *)
Definition string_le (a b : string) : Prop := String.leb a b = true.

#[global] Instance string_le_dec : RelDecision string_le.
Proof. intros a b. unfold string_le. apply _. Defined.

#[global] Instance string_le_total : Total string_le.
Proof. intros a b. apply String.leb_total. Qed.

(** [get_available_models()]: the models of all strategies, as a sorted
    list without repetitions. *)
Definition get_available_models (self : Client) : list string :=
  let models : gset string :=
    list_to_set (mjoin (snd <$> map_to_list (hierarchy self))) in
  merge_sort string_le (elements models).

(** ** Construction of the client *)

(** The [api_key] argument of the constructor: [None], a [SecretStr] or a
    plain string. *)
Inductive api_key_arg : Type :=
| KeyNone
| KeySecret (value : str)
| KeyStr (value : str).

(** The attributes set by [__init__]; [inst_headers] are the headers it
    adds to the session. *)
Record OpenRouterInstance : Type := mkInstance {
  inst_api_key : str;
  inst_app_name : str;
  inst_client : Client;
  inst_last_request_time : Q;
  inst_headers : list (string * str)
}.

Definition secretstr_message : str :=
  u "OPENROUTER_API_KEY передан как строка 'SecretStr(...)' вместо реального значения. "
  ++ u "Убедитесь, что в конфигурации используется .get_secret_value() или передаётся чистая строка.".

Definition invalid_key_message (api_key : option str) : str :=
  u "OPENROUTER_API_KEY недействителен. Убедитесь, что:" ++ nl
  ++ u "  1. В .env есть строка: OPENROUTER_API_KEY=sk-or-v1-..." ++ nl
  ++ u "  2. Ключ начинается с 'sk-'" ++ nl
  ++ u "  Текущее значение (первые 10 симв.): "
  ++ (if truthy_opt api_key then slice_to 10 (default [] api_key)
      else u "None").

Definition missing_key_message : str :=
  u "OPENROUTER_API_KEY не найден. Укажите его в .env файле.".

(** [OpenRouterClient.__init__]; [getenv] is
    [os.getenv("OPENROUTER_API_KEY")]. *)
Definition __init__ (getenv : option str) (api_key : api_key_arg)
    (app_name : str) (default_strategy : string) (request_delay : Q)
  : exn + OpenRouterInstance :=
  let api_key :=
    match api_key with
    | KeyNone => match getenv with Some v => KeyStr v | None => KeyNone end
    | _ => api_key
    end in
  match (match api_key with
         | KeySecret v => inr (Some v)
         | KeyStr v =>
             if starts_with (u "SecretStr(") v
             then inl (Raised ValueError secretstr_message)
             else inr (Some v)
         | KeyNone => inr None
         end) with
  | inl e => inl e
  | inr api_key =>
      if negb (truthy_opt api_key)
         || negb (starts_with (u "sk-") (default [] api_key))
      then inl (Raised ValueError (invalid_key_message api_key))
      else
        let self_api_key := if truthy_opt api_key then api_key else getenv in
        if negb (truthy_opt self_api_key)
        then inl (Raised ValueError missing_key_message)
        else
          let key := default [] self_api_key in
          inr (mkInstance key app_name
                 (OpenRouterClient default_strategy request_delay) 0%Q
                 [("Authorization", u "Bearer " ++ key);
                  ("HTTP-Referer", app_name ++ u ".local");
                  ("X-Title", app_name);
                  ("Content-Type", u "application/json")])
  end.


(** ** Configuration and factory *)

(** The settings of [AppConfig] that the factory reads. *)
Record AppConfig : Type := mkAppConfig {
  logging_level : str;
  logging_log_dir : str;
  openrouter_api_key : str;
  openrouter_request_delay : Q;
  summarization_strategy : str;
  summarization_min_files_for_aggregation : Z;
  extraction_ocr_lang : str
}.

Section ConfigModels.

(** [str(allowed)] for a set of strings: the braces and the quoted
    elements, in the order in which the interpreter iterates the set. *)
Variable set_repr : list str -> str.

(** [LoggingConfig.validate_level]: the value is lower-cased and must be
    one of the five level names. *)
Definition validate_level (v : str) : exn + str :=
  let v := lower v in
  let allowed :=
    [u "debug"; u "info"; u "warning"; u "error"; u "critical"] in
  if bool_decide (v ∈ allowed) then inr v
  else inl (Raised ValueError
              (u "Уровень логирования должен быть одним из: "
               ++ set_repr allowed)).

(** [SummarizationConfig.validate_strategy]: the value is lower-cased
    and must be one of the two names. *)
Definition validate_strategy (v : str) : exn + str :=
  let v := lower v in
  let allowed := [u "hierarchical"; u "simple"] in
  if bool_decide (v ∈ allowed) then inr v
  else inl (Raised ValueError
              (u "Стратегия должна быть одной из: " ++ set_repr allowed)).

End ConfigModels.

(** The threshold that [get_logger] gives to the logger and to its file
    and console handlers; [config_level] is [config.get("level")]. *)
Definition get_logger_level (config_level : option str) : level :=
  let logger_level := default (u "debug") config_level in
  if decide (logger_level = u "info") then INFO else DEBUG.

(** The threshold of the logger that [ComponentFactory.get_logger]
    builds for a configuration. *)
Definition factory_logger_level (config : AppConfig) : level :=
  get_logger_level (Some (logging_level config)).

(** The two strategy classes. *)
Inductive Strategy : Type :=
| SimpleSummarizationStrategy
| HierarchicalSummarizationStrategy (min_files_for_aggregation : Z).

Definition get_strategy_name (strategy : Strategy) : string :=
  match strategy with
  | SimpleSummarizationStrategy => simple_name
  | HierarchicalSummarizationStrategy _ => hierarchical_name
  end.

Definition get_strategy_description (strategy : Strategy) : str :=
  match strategy with
  | SimpleSummarizationStrategy => simple_description
  | HierarchicalSummarizationStrategy _ => hierarchical_description
  end.

(** The attributes set by [DocumentExtractor.__init__].  (The path of
    the recognition program, which it stores in a global setting of the
    recognition library, is not part of this model.) *)
Record DocumentExtractorInstance : Type := mkDocumentExtractor {
  extractor_logger : level;
  extractor_ocr_lang : str
}.

(** A [ComponentFactory]: its configuration and the logger it has
    cached, represented by its threshold. *)
Record ComponentFactory : Type := mkComponentFactory {
  factory_config : AppConfig;
  _logger : option level
}.

Section FactoryCode.

(** The environment of the factory: [getenv] is
    [os.getenv("OPENROUTER_API_KEY")], and [open_log_files log_dir] is
    what happens when [utils.get_logger] creates the directory
    [log_dir/ocr_app] and opens its log files there: [None] when this
    works, the exception raised (an [OSError]) otherwise. *)
Variable getenv : option str.
Variable open_log_files : str -> option exn.

(** [utils.get_logger(config, "ocr_app")], for the entries
    ["log_dir_async"] and ["level"] of [config]. *)
Definition utils_get_logger (log_dir : str) (config_level : option str)
  : exn + level :=
  match open_log_files log_dir with
  | Some e => inl e
  | None => inr (get_logger_level config_level)
  end.

(** [ComponentFactory.get_logger]: the logger is created on first use
    and cached. *)
Definition get_logger : State ComponentFactory (exn + level) :=
  fun self =>
    match _logger self with
    | Some logger => (inr logger, self)
    | None =>
        match utils_get_logger (logging_log_dir (factory_config self))
                (Some (logging_level (factory_config self))) with
        | inl e => (inl e, self)
        | inr logger =>
            (inr logger, mkComponentFactory (factory_config self) (Some logger))
        end
    end.

(** [ComponentFactory.get_extractor] *)
Definition get_extractor
  : State ComponentFactory (exn + DocumentExtractorInstance) :=
  logger ← get_logger;
  match logger with
  | inl e => ret (inl e)
  | inr logger =>
      fun self =>
        (inr (mkDocumentExtractor logger
                (extraction_ocr_lang (factory_config self))), self)
  end.

(** [ComponentFactory.get_client] *)
Definition get_client : State ComponentFactory (exn + OpenRouterInstance) :=
  logger ← get_logger;
  match logger with
  | inl e => ret (inl e)
  | inr _ =>
      fun self =>
        (__init__ getenv
           (KeySecret (openrouter_api_key (factory_config self)))
           (u "ocr-app") "balanced"
           (openrouter_request_delay (factory_config self)), self)
  end.

(** [ComponentFactory.get_strategy]: the extractor and the client are
    built, in this order, then the strategy is chosen by name. *)
Definition get_strategy
  : State ComponentFactory
      (exn + Strategy * DocumentExtractorInstance * OpenRouterInstance) :=
  extractor ← get_extractor;
  match extractor with
  | inl e => ret (inl e)
  | inr extractor =>
      client ← get_client;
      match client with
      | inl e => ret (inl e)
      | inr client =>
          fun self =>
            let config := factory_config self in
            if decide (summarization_strategy config = u "hierarchical") then
              (inr (HierarchicalSummarizationStrategy
                      (summarization_min_files_for_aggregation config),
                    extractor, client), self)
            else if decide (summarization_strategy config = u "simple") then
              (inr (SimpleSummarizationStrategy, extractor, client), self)
            else
              (inl (Raised ValueError
                      (u "Неизвестная стратегия: "
                       ++ summarization_strategy config)), self)
      end
  end.

End FactoryCode.

(** ** Extraction of a whole folder *)

(** The dictionary returned by [extract_folder]. *)
Record FolderExtraction : Type := mkFolderExtraction {
  ex_total_files : Z;
  ex_processed : Z;
  ex_failed : list str;
  ex_content : gmap str str
}.

Section ExtractFolderCode.

Variable path_exists : str -> bool.
Variable path_suffix : str -> str.
Variable pdfplumber_open : str -> pdf_file.
Variable Image_open : str -> exn + image.
Variable ocr_lang : str.
Variable folder_is_dir : str -> bool.
Variable glob : str -> bool -> list File.

(** The loop [for file_path in files] of [extract_folder]. *)
Fixpoint extract_loop (files : list File) (content : gmap str str)
    (failed_files : list str)
  : State (list level) (exn + gmap str str * list str) :=
  match files with
  | [] => ret (inr (content, failed_files))
  | file_path :: rest =>
      r ← extract_file path_exists path_suffix pdfplumber_open Image_open
            ocr_lang (f_path file_path);
      match r with
      | inl e => ret (inl e)
      | inr text =>
          if truthy (strip text) then
            extract_loop rest (<[f_relative file_path := text]> content)
              failed_files
          else
            extract_loop rest content
              (failed_files ++ [f_relative file_path])
      end
  end.

(** [extract_folder(folder_path, recursive)] *)
Definition extract_folder (folder_path : str) (recursive : bool)
  : State (list level) (exn + FolderExtraction) :=
  if negb (folder_is_dir folder_path) then
    ret (inl (Raised ValueError (u "Папка не найдена: " ++ folder_path)))
  else
    let files := glob folder_path recursive in
    logged INFO;;
    r ← extract_loop files ∅ [];
    match r with
    | inl e => ret (inl e)
    | inr (content, failed_files) =>
        ret (inr (mkFolderExtraction (Z.of_nat (length files))
                    (Z.of_nat (size content)) failed_files content))
    end.

End ExtractFolderCode.


(** ** The engine *)

Section EngineCode.

Context {S : Type}.
Variable extractor_extract_file : str -> State S str.
Variable extractor_supported_extensions : list str.
Variable client_summarize : str -> Q -> State S ModelRequestOutcome.
Variable folder_is_dir : str -> bool.
Variable glob : str -> bool -> list File.
Variable path_name : str -> str.
Variable sleep : Q -> S -> S.

(** [strategy.summarize_folder(...)]: the method of the strategy's
    class. *)
Definition strategy_summarize_folder (strategy : Strategy)
    (folder_path : str) (recursive : bool) (pause_between_files : Q) :=
  match strategy with
  | SimpleSummarizationStrategy =>
      simple_summarize_folder extractor_extract_file
        extractor_supported_extensions client_summarize folder_is_dir glob
        sleep folder_path recursive pause_between_files
  | HierarchicalSummarizationStrategy min_files_for_aggregation =>
      hierarchical_summarize_folder extractor_extract_file
        extractor_supported_extensions client_summarize folder_is_dir glob
        path_name sleep min_files_for_aggregation folder_path recursive
        pause_between_files
  end.

Record SummarizationEngine : Type := mkSummarizationEngine {
  _strategy : Strategy
}.

(** [SummarizationEngine.summarize_folder] *)
Definition engine_summarize_folder (self : SummarizationEngine)
    (folder_path : str) (recursive : bool) (pause_between_files : Q) :=
  strategy_summarize_folder (_strategy self) folder_path recursive
    pause_between_files.

(** [SummarizationEngine.get_strategy_info]: the values of ["name"] and
    ["description"]. *)
Definition get_strategy_info (self : SummarizationEngine) : string * str :=
  (get_strategy_name (_strategy self),
   get_strategy_description (_strategy self)).

End EngineCode.


(** ** The report *)

(** What [save_results] writes about the overview: the branch on
    [result["overview"]]. *)
Definition save_results_overview (overview : option str) : str :=
  if truthy_opt overview then
    u "ОБЩИЙ ОБЗОР СОДЕРЖИМОГО:" ++ nl ++ replicate 70 61%N ++ nl ++ nl
      ++ default [] overview ++ nl ++ nl
  else
    u "ОБЩИЙ ОБЗОР: отсутствует (стратегия 'simple')" ++ nl ++ nl.

(** * Properties *)

Ltac unfold_state :=
  unfold mbind, mret, State_bind, State_ret, bind, ret in *.

(** ** Strings *)

Lemma len_app (a b : str) : len (a ++ b) = len a + len b.
Proof. unfold len. rewrite length_app. lia. Qed.

Lemma len_nonneg (a : str) : 0 <= len a.
Proof. unfold len. lia. Qed.

Lemma len_slice_to (k : Z) (s : str) :
  0 <= k <= len s -> len (slice_to k s) = k.
Proof.
  intros Hk. unfold slice_to.
  destruct (Z.ltb_spec k 0) as [Hneg | _]; [lia |].
  unfold len in *. rewrite length_take. lia.
Qed.

Lemma len_slice_from_tail (k : Z) (s : str) :
  0 < k <= len s -> len (slice_from (- k) s) = k.
Proof.
  intros Hk. unfold slice_from.
  destruct (Z.ltb_spec (- k) 0) as [_ | Hpos]; [| lia].
  unfold len in *. rewrite length_drop. lia.
Qed.

Lemma three_fifths_bounds (c : Z) :
  0 <= c -> 0 <= Z.quot (c * 3) 5 /\ 5 * Z.quot (c * 3) 5 <= c * 3.
Proof.
  intros Hc. rewrite Z.quot_div_nonneg by lia.
  split; [apply Z.div_pos; lia |].
  apply Z.mul_div_le. lia.
Qed.

Lemma tail_positive_limit (c : Z) :
  0 < c - Z.min 15000 (Z.quot (c * 3) 5) - 100 -> 0 < c.
Proof.
  intros H. destruct (Z.lt_ge_cases 0 c) as [|Hneg]; [done |].
  exfalso.
  pose proof (Z.quot_opp_l (- (c * 3)) 5 ltac:(lia)) as Hq.
  rewrite Z.opp_involutive in Hq.
  pose proof (three_fifths_bounds (- c) ltac:(lia)) as [H0 H1].
  replace (- c * 3) with (- (c * 3)) in * by lia.
  lia.
Qed.

(** ** The context guard *)

Lemma len_omission_marker : len omission_marker = 51.
Proof. reflexivity. Qed.

Lemma len_prepare_prompt (t : str) : len (_prepare_prompt t) = len t + 434.
Proof.
  unfold _prepare_prompt. rewrite !len_app.
  change (len prompt_head) with 424. change (len prompt_tail) with 10. lia.
Qed.

Lemma truncate_text_short (limit : Z) (t : str) :
  len t <= limit -> truncate_text limit t = (t, false).
Proof.
  intros H. unfold truncate_text.
  destruct (Z.gtb_spec (len t) limit); [lia | done].
Qed.

Lemma truncate_text_long (limit : Z) (t : str) :
  let keep_start := Z.min 15000 (Z.quot (limit * 3) 5) in
  let keep_end := limit - keep_start - 100 in
  limit < len t -> 0 < keep_end ->
  truncate_text limit t
  = (take (Z.to_nat keep_start) t ++ omission_marker
       ++ drop (Z.to_nat (len t - keep_end)) t, true)
    /\ len (truncate_text limit t).1 = limit - 49.
Proof.
  intros keep_start keep_end Hlong Htail.
  pose proof (tail_positive_limit limit Htail) as Hpos.
  pose proof (three_fifths_bounds limit ltac:(lia)) as [Hq0 Hq1].
  assert (Hks : 0 <= keep_start <= len t) by (subst keep_start; lia).
  assert (Hke : 0 < keep_end <= len t) by (subst keep_end keep_start; lia).
  assert (Heq : truncate_text limit t
                = (slice_to keep_start t ++ omission_marker
                     ++ slice_from (- keep_end) t, true)).
  { unfold truncate_text.
    destruct (Z.gtb_spec (len t) limit); [done | lia]. }
  split.
  - rewrite Heq. unfold slice_to, slice_from.
    destruct (Z.ltb_spec keep_start 0); [lia |].
    destruct (Z.ltb_spec (- keep_end) 0); [| lia].
    reflexivity.
  - rewrite Heq. cbn [fst]. rewrite !len_app, len_omission_marker.
    rewrite len_slice_to, len_slice_from_tail by done.
    subst keep_end. lia.
Qed.

(** ** The fallback loop *)

(** The payloads [payloads] were sent model by model in the order of
    [models]: one non-empty block of requests per model. *)
Definition attempted_in_order (models : list string)
    (payloads : list Payload) : Prop :=
  exists blocks : list (list Payload),
    payloads = concat blocks
    /\ Forall2 (fun m block => block <> [] /\ Forall (fun p => p_model p = m) block)
         models blocks.

(** The message kept in [last_error] after the exceptions [errors]. *)
Definition last_error_after {ids : FutureIds} (before : option str)
    (errors : list exn)
  : option str :=
  match last errors with
  | Some e => Some (str_exn e)
  | None => before
  end.

(** The three responses that the code singles out all raise the
    exception class that the decorator retries. *)
Lemma singled_out_statuses_are_retryable (response : Response) :
  status_code response = 429
  \/ status_code response = 402
  \/ (status_code response = 400
      /\ contains (u "not a valid model ID") (text response) = true) ->
  exists msg,
    response_result (PostReturns response) = inl (Raised RequestException msg)
    /\ retry_if_exception_type (Raised RequestException msg) = true.
Proof.
  unfold response_result. intros [H | [H | [H Hbody]]]; rewrite H.
  - by eexists.
  - by eexists.
  - rewrite Hbody. by eexists.
Qed.

Section ClientFacts.

Context {ids : FutureIds}.

Context {W : Type}.
Variable session_post : Payload -> W -> post_result * W.
Variable time : W -> Q.
Variable sleep : Q -> W -> W.
Variable self : Client.

Local Abbreviation _request_attempt :=
  (_request_attempt session_post time sleep self).
Local Abbreviation _request := (_request session_post time sleep self).
Local Abbreviation try_models := (try_models session_post time sleep self).
Local Abbreviation fail_all := (fail_all session_post time sleep self).
Local Abbreviation summarize := (summarize session_post time sleep self).

Lemma _request_attempt_sent prompt model temperature s :
  sent (_request_attempt prompt model temperature s).2
  = sent s ++ [mkPayload model prompt temperature 1500].
Proof.
  unfold _request_attempt, _enforce_rate_limit, post.
  unfold_state. cbv beta iota. cbn [world sent last_request_time].
  destruct (session_post _ _) as [r w]. reflexivity.
Qed.

(** The retrying decorator repeats its body at most [retries] more
    times. *)
Lemma retrying_sent {A : Type} (body : State ClientState (exn + A))
    (payload : Payload) :
  (forall s, sent (body s).2 = sent s ++ [payload]) ->
  forall retries attempt_number s,
    exists k : nat,
      (1 <= k <= S retries)%nat
      /\ sent (retrying sleep retries attempt_number body s).2
         = sent s ++ replicate k payload.
Proof.
  intros Hbody retries.
  induction retries as [| n IH]; intros attempt_number s;
    cbn [retrying]; unfold_state; pose proof (Hbody s) as H1;
    destruct (body s) as [[e | a] s1]; cbn [snd] in H1.
  - exists 1%nat. split; [lia |].
    destruct (retry_if_exception_type e); exact H1.
  - exists 1%nat. split; [lia | exact H1].
  - destruct (retry_if_exception_type e);
      [| exists 1%nat; split; [lia | exact H1]].
    unfold pause. cbv beta iota.
    set (s1' := mkClientState _ _ _).
    destruct (IH (S attempt_number) s1') as (k & Hk & Hs).
    exists (S k). split; [lia |].
    rewrite Hs. subst s1'. cbn [sent replicate]. rewrite H1.
    rewrite <- app_assoc. reflexivity.
  - exists 1%nat. split; [lia | exact H1].
Qed.

(** A request is one attempt or two, all with the same payload. *)
Lemma _request_sent prompt model temperature s :
  exists k : nat,
    (1 <= k <= 2)%nat
    /\ sent (_request prompt model temperature s).2
       = sent s ++ replicate k (mkPayload model prompt temperature 1500).
Proof.
  unfold _request. apply retrying_sent.
  intros s'. apply _request_attempt_sent.
Qed.

Lemma _request_content prompt model temperature s :
  exists new,
    sent (_request prompt model temperature s).2 = sent s ++ new
    /\ new <> []
    /\ Forall (fun p => p_model p = model /\ p_content p = prompt) new.
Proof.
  destruct (_request_sent prompt model temperature s) as (k & Hk & Hs).
  exists (replicate k (mkPayload model prompt temperature 1500)).
  split; [done |]. split.
  - destruct k; [lia | done].
  - apply Forall_replicate. done.
Qed.

(** Requests that all fail go through the models in their order. *)
Lemma fail_all_sent prompt temperature models :
  forall s errors s1,
    fail_all prompt temperature models s = Some (errors, s1) ->
    length errors = length models
    /\ exists new,
         sent s1 = sent s ++ new
         /\ attempted_in_order models new
         /\ Forall (fun p => p_content p = prompt) new.
Proof.
  induction models as [| m ms IH]; intros s errors s1 H; cbn [fail_all] in H.
  - injection H as <- <-. split; [done |].
    exists []. rewrite app_nil_r. split; [done |]. split; [| done].
    exists []. split; [done | constructor].
  - destruct (_request_content prompt m temperature s)
      as (new1 & Hs1 & Hne & Hall).
    destruct (_request prompt m temperature s) as [[e | a] s'] eqn:Hreq;
      [| done].
    destruct (fail_all prompt temperature ms s') as [[errs s2] |] eqn:Hrest;
      [| done].
    injection H as <- <-. cbn [snd] in Hs1.
    destruct (IH _ _ _ Hrest) as (Hlen & new2 & Hs2 & (blocks & Hcat & Hbl) & Hc).
    split; [cbn; lia |].
    exists (new1 ++ new2). split; [by rewrite Hs2, Hs1, app_assoc |].
    split.
    + exists (new1 :: blocks). split; [by rewrite Hcat |].
      constructor; [| done]. split; [done |].
      eapply Forall_impl; [exact Hall | by intros p [? _]].
    + apply Forall_app. split; [| done].
      eapply Forall_impl; [exact Hall | by intros p [_ ?]].
Qed.

(** The loop, when the models of [before] fail and [model] answers. *)
Lemma try_models_success prompt temperature truncated models_to_try
    before model after answer :
  forall i last_error s errors s1 s2,
    fail_all prompt temperature before s = Some (errors, s1) ->
    _request prompt model temperature s1 = (inr answer, s2) ->
    try_models prompt temperature truncated models_to_try i
      (before ++ model :: after) last_error s
    = (success_outcome prompt truncated (i + length before) model answer, s2).
Proof.
  induction before as [| m ms IH]; intros i last_error s errors s1 s2 Hf Hr.
  - cbn [fail_all] in Hf. injection Hf as <- <-.
    cbn [app try_models]. unfold_state. rewrite Hr.
    by rewrite Nat.add_0_r.
  - cbn [fail_all] in Hf. cbn [app try_models]. unfold_state.
    destruct (_request prompt m temperature s) as [[e | a] s'] eqn:Hreq;
      [| done].
    destruct (fail_all prompt temperature ms s') as [[errs s2'] |] eqn:Hrest;
      [| done].
    injection Hf as <- <-.
    rewrite (IH (S i) _ _ _ _ _ Hrest Hr). cbn [length].
    by rewrite Nat.add_succ_r.
Qed.

(** The loop, when every remaining model fails. *)
Lemma try_models_failure prompt temperature truncated models_to_try rest :
  forall i last_error s errors s1,
    fail_all prompt temperature rest s = Some (errors, s1) ->
    try_models prompt temperature truncated models_to_try i rest
      last_error s
    = (failure_outcome truncated models_to_try
         (last_error_after last_error errors), s1).
Proof.
  induction rest as [| m ms IH]; intros i last_error s errors s1 Hf.
  - cbn [fail_all] in Hf. injection Hf as <- <-. reflexivity.
  - cbn [fail_all] in Hf. cbn [try_models]. unfold_state.
    destruct (_request prompt m temperature s) as [[e | a] s'] eqn:Hreq;
      [| done].
    destruct (fail_all prompt temperature ms s') as [[errs s2] |] eqn:Hrest;
      [| done].
    injection Hf as <- <-.
    rewrite (IH _ _ _ _ _ Hrest). f_equal. f_equal.
    unfold last_error_after. rewrite last_cons.
    destruct (last errs); reflexivity.
Qed.

(** Either some model answers after its predecessors failed, or every
    model fails. *)
Lemma first_success_or_all_fail prompt temperature models :
  forall s,
    (exists errors s1,
        fail_all prompt temperature models s = Some (errors, s1))
    \/ (exists before model after errors s1 answer s2,
           models = before ++ model :: after
           /\ fail_all prompt temperature before s = Some (errors, s1)
           /\ _request prompt model temperature s1 = (inr answer, s2)).
Proof.
  induction models as [| m ms IH]; intros s.
  - left. by exists [], s.
  - destruct (_request prompt m temperature s) as [[e | a] s'] eqn:Hreq.
    + destruct (IH s') as [(errs & s1 & Hf)
                          | (b & m' & a & errs & s1 & ans & s2 & -> & Hf & Hr)].
      * left. exists (e :: errs), s1. cbn [fail_all]. by rewrite Hreq, Hf.
      * right. exists (m :: b), m', a, (e :: errs), s1, ans, s2.
        split; [done |]. split; [| done]. cbn [fail_all]. by rewrite Hreq, Hf.
    + right. by exists [], m, ms, [], s, a, s'.
Qed.

Lemma summarize_setup_nonempty text strategy models prompt truncated :
  summarize_setup self text strategy = inr (models, prompt, truncated) ->
  models <> [].
Proof.
  unfold summarize_setup.
  destruct (hierarchy self !! "balanced") as [balanced |]; [| done].
  destruct (default balanced _) as [| first rest]; [done |].
  destruct (truncate_text _ _). intros [= <- _ _]. done.
Qed.


(** Total exhaustion: when every candidate model fails, [summarize]
    returns an outcome with [success] false and no summary, whose error
    message is the fixed prefix followed by [str(e)] of the last
    exception that [_request] raised, and whose metadata lists all the
    models that were tried. *)
Theorem summarize_total_exhaustion text strategy temperature s
    models prompt truncated errors s1 :
  summarize_setup self text strategy = inr (models, prompt, truncated) ->
  fail_all prompt temperature models s = Some (errors, s1) ->
  exists o e,
    summarize text strategy temperature s = (inr o, s1)
    /\ success o = false
    /\ summary o = None
    /\ last errors = Some e
    /\ error o
       = Some (u "Все модели недоступны. Последняя ошибка: " ++ str_exn e)
    /\ md_attempted_models (metadata o) = Some models.
Proof.
  intros Hsetup Hfail.
  pose proof (summarize_setup_nonempty _ _ _ _ _ Hsetup) as Hne.
  destruct (fail_all_sent _ _ _ _ _ _ Hfail) as (Hlen & _).
  destruct (last errors) as [e |] eqn:Hlast.
  2:{ apply last_None in Hlast. subst errors.
      destruct models; [done | discriminate]. }
  exists (failure_outcome truncated models (Some (str_exn e))), e.
  split.
  { unfold summarize. rewrite Hsetup. unfold_state.
    rewrite (try_models_failure _ _ _ _ _ _ _ _ _ _ Hfail).
    unfold last_error_after. by rewrite Hlast. }
  by repeat split.
Qed.

(** Every request of the loop carries the prepared prompt. *)
Lemma try_models_sent prompt temperature truncated models_to_try rest :
  forall i last_error s,
    exists new,
      sent (try_models prompt temperature truncated models_to_try i rest
              last_error s).2 = sent s ++ new
      /\ Forall (fun p => p_content p = prompt) new.
Proof.
  induction rest as [| m ms IH]; intros i last_error s.
  - exists []. by rewrite app_nil_r.
  - cbn [try_models]. unfold_state.
    destruct (_request_content prompt m temperature s)
      as (new1 & Hs1 & _ & Hall).
    assert (Forall (fun p => p_content p = prompt) new1) as Hc
      by (eapply Forall_impl; [exact Hall | by intros p [_ ?]]).
    destruct (_request prompt m temperature s) as [[e | a] s'];
      cbn [snd] in Hs1.
    + destruct (IH (S i) (Some (str_exn e)) s') as (new2 & Hs2 & Hc2).
      exists (new1 ++ new2). split.
      * by rewrite Hs2, Hs1, app_assoc.
      * by apply Forall_app.
    + by exists new1.
Qed.

Lemma summarize_setup_inv text strategy first rest prompt truncated :
  summarize_setup self text strategy = inr (first :: rest, prompt, truncated) ->
  let limit := default 25000 (context_limits self !! first) in
  prompt = _prepare_prompt (truncate_text limit text).1
  /\ truncated = (truncate_text limit text).2.
Proof.
  unfold summarize_setup.
  destruct (hierarchy self !! "balanced") as [balanced |]; [| done].
  destruct (default balanced _) as [| first' rest']; [done |].
  destruct (truncate_text _ text) as [text' tr] eqn:Htr.
  intros [= -> -> <- <-]. cbn zeta. by rewrite Htr.
Qed.

(** C1, as the code has it: the context guard compares the length of
    the input text (not of the prepared prompt) with the budget of the
    first candidate model.  A text within the budget is left alone.  A
    longer text is replaced, when the tail length is positive, by its
    first min(15000, 3/5 of the budget) characters, the omission marker
    of 51 characters and its last (budget - head - 100) characters,
    which makes budget - 49 characters; the prompt sent with every
    request wraps that text in the fixed instructions of 434 characters
    and is therefore longer than the budget. *)
Theorem summarize_truncation text strategy temperature s
    first rest prompt truncated :
  summarize_setup self text strategy
  = inr (first :: rest, prompt, truncated) ->
  let limit := default 25000 (context_limits self !! first) in
  let keep_start := Z.min 15000 (Z.quot (limit * 3) 5) in
  let keep_end := limit - keep_start - 100 in
  (exists new,
      sent (summarize text strategy temperature s).2 = sent s ++ new
      /\ Forall (fun p => p_content p = prompt) new)
  /\ (len text <= limit ->
      truncated = false /\ prompt = _prepare_prompt text)
  /\ (limit < len text -> 0 < keep_end ->
      truncated = true
      /\ prompt
         = _prepare_prompt
             (take (Z.to_nat keep_start) text ++ omission_marker
                ++ drop (Z.to_nat (len text - keep_end)) text)
      /\ len prompt = limit - 49 + 434).
Proof.
  intros Hsetup limit keep_start keep_end.
  destruct (summarize_setup_inv _ _ _ _ _ _ Hsetup) as [Hp Ht].
  fold limit in Hp, Ht.
  split; [| split].
  - unfold summarize. rewrite Hsetup. unfold_state.
    destruct (try_models_sent prompt temperature truncated (first :: rest)
                (first :: rest) 0%nat None s) as (new & Hs & Hc).
    exists new. split; [| done].
    destruct (try_models _ _ _ _ _ _ _ s) as [o s']. exact Hs.
  - intros Hshort. rewrite (truncate_text_short _ _ Hshort) in Hp, Ht.
    done.
  - intros Hlong Htail.
    destruct (truncate_text_long limit text Hlong Htail) as [Heq Hlen].
    rewrite Hp, Ht, len_prepare_prompt, Hlen, Heq. done.
Qed.

(** Whatever the backend does, the loop ends with an outcome of one of
    two shapes. *)
Lemma summarize_outcome text strategy temperature s models prompt truncated :
  summarize_setup self text strategy = inr (models, prompt, truncated) ->
  exists o,
    (summarize text strategy temperature s).1 = inr o
    /\ ((success o = true /\ is_Some (summary o) /\ error o = None)
        \/ (success o = false /\ summary o = None
            /\ exists e,
                error o
                = Some (u "Все модели недоступны. Последняя ошибка: "
                          ++ str_exn e))).
Proof.
  intros Hsetup.
  pose proof (summarize_setup_nonempty _ _ _ _ _ Hsetup) as Hne.
  unfold summarize. rewrite Hsetup. unfold_state.
  destruct (first_success_or_all_fail prompt temperature models s)
    as [(errs & s1 & Hf)
       | (b & m & a & errs & s1 & ans & s2 & -> & Hf & Hr)].
  - rewrite (try_models_failure _ _ _ _ _ _ _ _ _ _ Hf).
    eexists. split; [reflexivity |]. right.
    do 2 (split; [reflexivity |]).
    destruct (fail_all_sent _ _ _ _ _ _ Hf) as (Hlen & _).
    destruct (last errs) as [e |] eqn:Hlast.
    + exists e. cbn [failure_outcome error]. unfold last_error_after.
      by rewrite Hlast.
    + apply last_None in Hlast. subst errs.
      destruct models; [done | discriminate].
  - rewrite (try_models_success _ _ _ _ _ _ _ _ _ _ _ _ _ _ Hf Hr).
    eexists. split; [reflexivity |]. left.
    split; [reflexivity |]. split; [by eexists | reflexivity].
Qed.


(** An attempt that fails with a retryable exception is followed by a
    second attempt with the same payload. *)
Lemma retryable_failure_is_retried prompt model temperature s e s1 :
  _request_attempt prompt model temperature s = (inl e, s1) ->
  retry_if_exception_type e = true ->
  sent (_request prompt model temperature s).2
  = sent s ++ [mkPayload model prompt temperature 1500;
               mkPayload model prompt temperature 1500].
Proof.
  intros Hattempt Hretry.
  pose proof (_request_attempt_sent prompt model temperature s) as H1.
  rewrite Hattempt in H1. cbn [snd] in H1.
  unfold _request. cbn [retrying]. unfold_state.
  rewrite Hattempt, Hretry. unfold pause. cbv beta iota.
  set (s1' := mkClientState _ _ _).
  pose proof (_request_attempt_sent prompt model temperature s1') as H2.
  destruct (_request_attempt prompt model temperature s1') as [r2 s2].
  cbn [snd] in H2. subst s1'. cbn [sent] in H2.
  rewrite H1, <- app_assoc in H2.
  destruct r2 as [e2 | a2]; [destruct (retry_if_exception_type e2) |];
    exact H2.
Qed.

End ClientFacts.

(** ** The client with the shipped model tables *)

Lemma summarize_setup_defined (self : Client) (text : str)
    (strategy : option string) (balanced : list string) :
  hierarchy self !! "balanced" = Some balanced ->
  (forall name models, hierarchy self !! name = Some models -> models <> []) ->
  exists models prompt truncated,
    summarize_setup self text strategy = inr (models, prompt, truncated).
Proof.
  intros Hbalanced Hnonempty. unfold summarize_setup. rewrite Hbalanced.
  set (name := effective_strategy self strategy).
  assert (default balanced (hierarchy self !! name) <> []) as Hne.
  { destruct (hierarchy self !! name) as [models |] eqn:Hlookup.
    - exact (Hnonempty _ _ Hlookup).
    - exact (Hnonempty _ _ Hbalanced). }
  destruct (default balanced (hierarchy self !! name)) as [| first rest];
    [done |].
  destruct (truncate_text _ text) as [text' truncated]. by eexists _, _, _.
Qed.

Lemma MODEL_HIERARCHY_nonempty (name : string) (models : list string) :
  MODEL_HIERARCHY !! name = Some models -> models <> [].
Proof.
  unfold MODEL_HIERARCHY. intros H.
  apply lookup_insert_Some in H as [[_ <-] | [_ H]]; [done |].
  apply lookup_insert_Some in H as [[_ <-] | [_ H]]; [done |].
  apply lookup_singleton_Some in H as [_ <-]. done.
Qed.

Lemma shipped_setup (default_strategy : string) (request_delay : Q)
    (text : str) (strategy : option string) :
  exists models prompt truncated,
    summarize_setup (OpenRouterClient default_strategy request_delay) text
      strategy = inr (models, prompt, truncated).
Proof.
  apply (summarize_setup_defined _ _ _ ["mistralai/mistral-7b-instruct:nitro"]).
  - reflexivity.
  - exact MODEL_HIERARCHY_nonempty.
Qed.

Section ShippedClient.

Context {ids : FutureIds}.

Context {W : Type}.
Variable session_post : Payload -> W -> post_result * W.
Variable time : W -> Q.
Variable sleep : Q -> W -> W.

(** C4: with the shipped model tables, [summarize] returns an outcome
    for every text, strategy argument and temperature and whatever the
    backend does: it never raises.  The outcome is either a success
    with a summary and no error, or a failure without summary whose
    [error] field carries the message of the last exception. *)
Theorem summarize_never_raises (default_strategy : string)
    (request_delay : Q) (text : str) (strategy : option string)
    (temperature : Q) (s : ClientState) :
  exists o,
    (summarize session_post time sleep
       (OpenRouterClient default_strategy request_delay)
       text strategy temperature s).1 = inr o
    /\ ((success o = true /\ is_Some (summary o) /\ error o = None)
        \/ (success o = false /\ summary o = None
            /\ exists e,
                error o
                = Some (u "Все модели недоступны. Последняя ошибка: "
                          ++ str_exn e))).
Proof.
  destruct (shipped_setup default_strategy request_delay text strategy)
    as (models & prompt & truncated & Hsetup).
  exact (summarize_outcome session_post time sleep _ text strategy
           temperature s models prompt truncated Hsetup).
Qed.


End ShippedClient.

(** ** Worked examples for the client *)

Definition long_text : str := replicate 1500 97%N.

Definition server_error : post_result :=
  refuses 500 (u "Internal Server Error") [].

Definition payment_required : post_result :=
  refuses 402 (u "Payment Required") [].

Definition invalid_model : post_result :=
  refuses 400 (u "Bad Request") (u "nope is not a valid model ID").

Definition mistral : string := "mistralai/mistral-7b-instruct:nitro".

(** The budget example of the specification: a budget of 1000 characters
    and an input of 1500. *)
Lemma summarize_truncation_witness :
  exists prompt,
    summarize_setup (client_with ["M"] 1000) long_text None
    = inr (["M"], prompt, true)
    /\ prompt
       = _prepare_prompt
           (take 600 long_text ++ omission_marker ++ drop 1200 long_text)
    /\ len prompt = 1385.
Proof.
  set (prompt := _prepare_prompt (truncate_text 1000 long_text).1).
  assert (summarize_setup (client_with ["M"] 1000) long_text None
          = inr (["M"], prompt, true)) as Hsetup
    by (vm_compute; reflexivity).
  destruct (summarize_truncation scripted_post frozen_clock no_sleep
              (client_with ["M"] 1000) long_text None (3 # 10)%Q
              (fresh [answers (u "ok")]) "M" [] prompt true Hsetup)
    as (_ & _ & Hlong).
  destruct Hlong as (_ & Hprompt & Hlen);
    [vm_compute; reflexivity | vm_compute; reflexivity |].
  exists prompt. split; [exact Hsetup |]. split; [exact Hprompt | exact Hlen].
Defined.

(** C1 as stated fails: with a budget of 1000 and an input of 1500
    characters the text is cut to 951 characters, but the prepared prompt
    that is sent has 1385 characters, more than the budget. *)
Lemma truncated_prompt_exceeds_budget :
  exists prompt,
    summarize_setup (client_with ["M"] 1000) long_text None
    = inr (["M"], prompt, true)
    /\ len long_text = 1500
    /\ map p_content
         (sent (run_summarize (client_with ["M"] 1000) long_text None
                  (3 # 10)%Q [answers (u "ok")]).2) = [prompt]
    /\ len prompt = 1385
    /\ ~ len prompt <= 1000.
Proof.
  exists (_prepare_prompt (truncate_text 1000 long_text).1).
  split; [vm_compute; reflexivity |].
  split; [reflexivity |].
  split; [vm_compute; reflexivity |].
  split; [vm_compute; reflexivity |].
  intros H. vm_compute in H. by apply H.
Qed.



(** Two models that both fail: the error names the last failure. *)
Lemma summarize_total_exhaustion_witness :
  exists o,
    (run_summarize (client_with ["A"; "B"] 1000) (u "text") None (3 # 10)%Q
       [server_error; server_error; payment_required; payment_required]).1
    = inr o
    /\ success o = false
    /\ summary o = None
    /\ error o
       = Some (u "Все модели недоступны. Последняя ошибка: "
                 ++ str_exn
                      (RetryError
                         (Raised RequestException
                            (u "Credit limit exceeded (402)"))))
    /\ md_attempted_models (metadata o) = Some ["A"; "B"].
Proof.
  set (self := client_with ["A"; "B"] 1000).
  set (prompt := _prepare_prompt (u "text")).
  set (s0 := fresh [server_error; server_error; payment_required;
                    payment_required]).
  destruct (fail_all scripted_post frozen_clock no_sleep self prompt
              (3 # 10)%Q ["A"; "B"] s0) as [[errors s1] |] eqn:Hfail;
    [| vm_compute in Hfail; discriminate].
  destruct (summarize_total_exhaustion scripted_post frozen_clock no_sleep
              self (u "text") None (3 # 10)%Q s0 ["A"; "B"] prompt false
              errors s1)
    as (o & e & Hrun & Hsuccess & Hsummary & Hlast & Herror & Hmodels);
    [vm_compute; reflexivity | exact Hfail |].
  exists o. unfold run_summarize. fold self s0. rewrite Hrun.
  split; [reflexivity |]. split; [exact Hsuccess |].
  split; [exact Hsummary |]. split; [| exact Hmodels].
  rewrite Herror.
  vm_compute in Hfail. injection Hfail as <- <-.
  vm_compute in Hlast. injection Hlast as <-. reflexivity.
Defined.



(** The first request to the first model of ["fast"] is refused with
    [refusal], the second is answered: the same model is asked twice and
    wins without any fallback. *)
Definition wins_after_retry {ids : FutureIds} (refusal : post_result)
  : Prop :=
  exists o s,
    run_summarize (OpenRouterClient "fast" 5%Q) (u "text") None (3 # 10)%Q
      [refusal; answers (u "ok")] = (inr o, s)
    /\ map p_model (sent s) = [mistral; mistral]
    /\ success o = true /\ model_used o = mistral
    /\ fallback_used o = false.

(** C3: the code retries a model after "payment required" (402) and
    after "invalid model identifier" (400), exactly as it does after "too
    many requests" (429): the second request goes to the same model, and
    when that one is answered the model wins. *)
Theorem payment_required_and_invalid_model_are_retried {ids : FutureIds} :
  wins_after_retry payment_required
  /\ wins_after_retry invalid_model
  /\ wins_after_retry (refuses 429 (u "Too Many Requests") []).
Proof.
  repeat split;
    (eexists _, _; split; [vm_compute; reflexivity |]; by repeat split).
Qed.

(** C9: the labels are removed with [lstrip], which drops every leading
    character that occurs in the label.  An answer that carries no label
    but starts with such characters loses them. *)
Theorem label_stripping_eats_summary_text {ids : FutureIds} :
  starts_with (u "Саммари:") (u "Самарский суд удовлетворил иск") = false
  /\ starts_with (u "Summary:") (u "Самарский суд удовлетворил иск") = false
  /\ (exists o,
        (run_summarize (OpenRouterClient "balanced" 5%Q) (u "text") None
           (3 # 10)%Q [answers (u "Самарский суд удовлетворил иск")]).1
        = inr o
        /\ summary o = Some (u "ский суд удовлетворил иск"))
  /\ clean_summary (u "army report") = u "report".
Proof.
  split; [reflexivity |]. split; [reflexivity |]. split; [| reflexivity].
  eexists. split; [vm_compute; reflexivity | reflexivity].
Qed.

(** ** The text extractor *)

Section ExtractorFacts.

Variable path_exists : str -> bool.
Variable path_suffix : str -> str.
Variable pdfplumber_open : str -> pdf_file.
Variable Image_open : str -> exn + image.
Variable ocr_lang : str.

Local Abbreviation _extract_pdf := (_extract_pdf pdfplumber_open).
Local Abbreviation _extract_image := (_extract_image Image_open ocr_lang).
Local Abbreviation extract_file :=
  (extract_file path_exists path_suffix pdfplumber_open Image_open ocr_lang).

Lemma _extract_pdf_returns path log :
  exists text log', _extract_pdf path log = (inr text, log').
Proof.
  unfold _extract_pdf, logged. unfold_state.
  destruct (pdfplumber_open path) as [e | pages]; [by eexists _, _ |].
  destruct (pdf_pages 1 pages []) as [text [e |]]; by eexists _, _.
Qed.

(** A failure of the image pipeline gives the empty string. *)
Lemma _extract_image_returns path log :
  exists text log', _extract_image path log = (inr text, log')
    /\ (last log' = Some ERROR -> text = []).
Proof.
  unfold _extract_image, logged. unfold_state.
  destruct (Image_open path) as [e | img]; [by eexists _, _ |].
  destruct (if bool_decide _ then _ else _) as [e |]; [by eexists _, _ |].
  destruct (image_to_string img ocr_lang) as [e | text];
    [by eexists _, _ |].
  eexists _, _. split; [reflexivity |].
  cbv beta iota. rewrite last_snoc. discriminate.
Qed.

(** [extract_file] returns a string for every path: it never raises. *)
Lemma extract_file_never_raises file_path log :
  exists text log', extract_file file_path log = (inr text, log').
Proof.
  unfold extract_file, logged. unfold_state.
  destruct (path_exists file_path); cbn [negb]; [| by eexists _, _].
  destruct (ext_in _ SUPPORTED_PDF_EXTS).
  - destruct (_extract_pdf_returns file_path log) as (t & l & ->).
    by eexists _, _.
  - destruct (ext_in _ SUPPORTED_IMAGE_EXTS).
    + destruct (_extract_image_returns file_path log) as (t & l & -> & _).
      by eexists _, _.
    + by eexists _, _.
Qed.

(** A missing file gives the empty string and a warning. *)
Lemma extract_file_missing file_path log :
  path_exists file_path = false ->
  extract_file file_path log = (inr [], log ++ [WARNING]).
Proof. intros H. unfold extract_file. rewrite H. reflexivity. Qed.

(** A file whose extension is not supported is skipped: the result is
    the empty string, no backend is asked and nothing is logged as an
    error. *)
Lemma extract_file_unsupported file_path log :
  path_exists file_path = true ->
  lower (path_suffix file_path) ∉ SUPPORTED_PDF_EXTS ->
  lower (path_suffix file_path) ∉ SUPPORTED_IMAGE_EXTS ->
  extract_file file_path log = (inr [], log ++ [INFO]).
Proof.
  intros Hex Hpdf Himg. unfold extract_file, ext_in. rewrite Hex.
  cbn [negb]. rewrite !bool_decide_eq_false_2 by done. reflexivity.
Qed.

End ExtractorFacts.

(** A PDF whose first page is readable and whose second page makes the
    backend raise. *)
Definition half_readable_pdf : pdf_file :=
  PdfPages [inr (Some (u "Договор аренды"));
            inl (Raised OtherException (u "Unexpected EOF"))].

(** C7: [extract_file] never raises, but a failure does not always give
    the empty string: when the PDF backend raises after some pages were
    read, the error is logged and the text of the pages read so far is
    returned. *)
Theorem corrupted_pdf_yields_partial_text :
  extract_file (fun _ => true) (fun _ => u ".pdf")
    (fun _ => half_readable_pdf)
    (fun _ => inl (Raised OtherException (u "cannot identify image file")))
    (u "rus+eng") (u "scan.pdf") []
  = (inr (u "--- Страница 1 ---" ++ nl ++ u "Договор аренды"), [ERROR]).
Proof. vm_compute. reflexivity. Qed.

(** ** The folder strategies *)

(** The counters of a folder result agree with its list of summaries. *)
Definition counts_agree (targets : list File) (r : FolderSummaryResult)
  : Prop :=
  processed (folder_metadata r) = count_success (file_summaries r)
  /\ (targets <> [] ->
      total_files (folder_metadata r)
      = Z.of_nat (length (file_summaries r)))
  /\ (targets = [] -> total_files (folder_metadata r) = 0)
  /\ length (file_summaries r) = length targets.

(** A summary with status [success] carries a non-empty text. *)
Definition summary_present (fs : FileSummary) : Prop :=
  fs_status fs = StatusSuccess -> truthy_opt (fs_summary fs) = true.

Section StrategyFacts.

Context {S : Type}.
Variable extractor_extract_file : str -> State S str.
Variable extractor_supported_extensions : list str.
Variable client_summarize : str -> Q -> State S ModelRequestOutcome.
Variable folder_is_dir : str -> bool.
Variable glob : str -> bool -> list File.
Variable path_name : str -> str.
Variable sleep : Q -> S -> S.

Local Abbreviation _summarize_single_file :=
  (_summarize_single_file extractor_extract_file client_summarize).
Local Abbreviation files_loop :=
  (files_loop extractor_extract_file client_summarize sleep).
Local Abbreviation target_files :=
  (target_files extractor_supported_extensions glob).
Local Abbreviation _aggregate_summaries :=
  (_aggregate_summaries client_summarize path_name).
Local Abbreviation simple_summarize_folder :=
  (simple_summarize_folder extractor_extract_file
     extractor_supported_extensions client_summarize folder_is_dir glob
     sleep).
Local Abbreviation hierarchical_summarize_folder :=
  (hierarchical_summarize_folder extractor_extract_file
     extractor_supported_extensions client_summarize folder_is_dir glob
     path_name sleep).

(** One file: the client is called once, at temperature 0.3, unless the
    extracted text is blank. *)
Lemma _summarize_single_file_spec file_path s :
  exists fs s' new,
    _summarize_single_file file_path s = (fs, s')
    /\ summary_present fs
    /\ calls s' = calls s ++ new
    /\ length new = (if decide (fs_status fs = StatusEmpty) then 0 else 1)%nat
    /\ Forall (fun c => c.2 = (3 # 10)%Q) new.
Proof.
  unfold _summarize_single_file, extract, call_client. unfold_state.
  destruct (extractor_extract_file (f_path file_path) (env s)) as [text e].
  destruct (truthy (strip text)); cbn [negb].
  - cbn [env calls].
    destruct (client_summarize text (3 # 10)%Q e) as [result e'].
    destruct (success result && truthy_opt (summary result)) eqn:Hok.
    + eexists _, _, [_]. split; [reflexivity |].
      split; [| by repeat constructor].
      intros _. cbn [fs_summary]. by apply andb_prop in Hok as [_ ?].
    + eexists _, _, [_]. split; [reflexivity |].
      split; [| by repeat constructor]. by intros [=].
  - eexists _, _, []. split; [reflexivity |].
    split; [by intros [=] |]. rewrite app_nil_r. by repeat constructor.
Qed.

(** The loop over the target files adds one summary per file, in order. *)
Lemma files_loop_spec pause total files :
  forall i file_summaries failed_files s,
    exists new_summaries new_failed new_calls s',
      files_loop pause total i files file_summaries failed_files s
      = ((file_summaries ++ new_summaries, failed_files ++ new_failed), s')
      /\ length new_summaries = length files
      /\ Forall summary_present new_summaries
      /\ calls s' = calls s ++ new_calls
      /\ length new_calls
         = length (filter (fun fs => fs_status fs <> StatusEmpty)
                     new_summaries)
      /\ Forall (fun c => c.2 = (3 # 10)%Q) new_calls.
Proof.
  induction files as [| f rest IH]; intros i file_summaries failed_files s.
  - exists [], [], [], s. rewrite !app_nil_r. by repeat split.
  - cbn [files_loop]. unfold_state.
    destruct (_summarize_single_file_spec f s)
      as (fs & s1 & new1 & -> & Hok & Hcalls1 & Hlen1 & Htemp1).
    set (failed1 := if decide (fs_status fs <> StatusSuccess)
                    then failed_files ++ [f_relative f] else failed_files).
    assert (exists more, failed1 = failed_files ++ more) as [more Hmore].
    { subst failed1.
      destruct (decide (fs_status fs <> StatusSuccess));
        [eexists; reflexivity |].
      exists []. by rewrite app_nil_r. }
    set (wait := if (i <? total) && negb (Qle_bool pause 0) then _ else _).
    assert (calls (wait s1).2 = calls s1) as Hwait.
    { subst wait. destruct (_ && _); reflexivity. }
    destruct (wait s1) as [[] s2]. cbn [snd] in Hwait.
    destruct (IH (i + 1) (file_summaries ++ [fs]) failed1 s2)
      as (news & newf & newc & s' & -> & Hlen & Hall & Hcalls & Hlenc & Htemp).
    exists (fs :: news), (more ++ newf), (new1 ++ newc), s'.
    split.
    { rewrite Hmore, <- !app_assoc. reflexivity. }
    split; [cbn [length]; lia |].
    split; [by constructor |].
    split; [by rewrite Hcalls, Hwait, Hcalls1, app_assoc |].
    split; [| by apply Forall_app].
    rewrite length_app, Hlenc, Hlen1, filter_cons.
    destruct (decide (fs_status fs <> StatusEmpty)) as [Hne | Heq];
      destruct (decide (fs_status fs = StatusEmpty)); try done.
Qed.

Lemma successful_summaries_present file_summaries :
  Forall summary_present file_summaries ->
  successful_summaries file_summaries
  = filter (fun fs => fs_status fs = StatusSuccess) file_summaries.
Proof.
  unfold successful_summaries.
  induction 1 as [| fs rest Hfs _ IH]; [reflexivity |].
  rewrite !filter_cons, IH.
  destruct (decide (fs_status fs = StatusSuccess)) as [Hs | Hs].
  - rewrite decide_True by (split; [done | by apply Hfs]). reflexivity.
  - rewrite decide_False by (by intros [? _]). reflexivity.
Qed.

(** With at least one success, the aggregation asks the client once, at
    temperature 0.4, and always produces an overview. *)
Lemma _aggregate_summaries_spec file_summaries s :
  Forall summary_present file_summaries ->
  1 <= count_success file_summaries ->
  let text :=
    aggregation_text path_name (successful_summaries file_summaries) in
  exists result s',
    client_summarize text (4 # 10)%Q (env s) = (result, env s')
    /\ calls s' = calls s ++ [(text, (4 # 10)%Q)]
    /\ _aggregate_summaries file_summaries s
       = (if success result && truthy_opt (summary result)
          then summary result
          else Some (aggregation_failed result), s')
    /\ is_Some (if success result && truthy_opt (summary result)
                then summary result
                else Some (aggregation_failed result)).
Proof.
  intros Hpresent Hcount text.
  unfold _aggregate_summaries. fold text.
  destruct (successful_summaries file_summaries) as [| fs rest] eqn:Hsucc.
  { rewrite successful_summaries_present in Hsucc by done.
    unfold count_success in Hcount. rewrite Hsucc in Hcount.
    cbn [length] in Hcount. lia. }
  unfold call_client. unfold_state.
  destruct (client_summarize text (4 # 10)%Q (env s)) as [result e] eqn:Hcall.
  exists result, (mkStrategyState e (calls s ++ [(text, (4 # 10)%Q)])).
  split; [reflexivity |]. split; [reflexivity |].
  destruct (success result && truthy_opt (summary result)) eqn:Hok.
  - split; [reflexivity |].
    apply andb_prop in Hok as [_ Htruthy].
    destruct (summary result); [by eexists | discriminate].
  - split; [reflexivity | by eexists].
Qed.

(** C8: in the result of a folder run of either strategy, [processed]
    is the number of file summaries with status success, and
    [total_files] is the number of file summaries (one per target file)
    when target files were found and 0 otherwise. *)
Theorem folder_result_counts min_files_for_aggregation folder_path
    recursive pause_between_files s :
  folder_is_dir folder_path = true ->
  (exists r s',
      simple_summarize_folder folder_path recursive pause_between_files s
      = (inr r, s')
      /\ counts_agree (target_files folder_path recursive) r)
  /\ (exists r s',
         hierarchical_summarize_folder min_files_for_aggregation
           folder_path recursive pause_between_files s = (inr r, s')
         /\ counts_agree (target_files folder_path recursive) r).
Proof.
  intros Hdir.
  unfold simple_summarize_folder, hierarchical_summarize_folder.
  rewrite Hdir. cbn [negb]. fold (target_files folder_path recursive).
  destruct (target_files folder_path recursive) as [| f rest] eqn:Htargets.
  { split; eexists _, _; (split; [reflexivity |]); by repeat split. }
  unfold_state.
  destruct (files_loop_spec pause_between_files
              (Z.of_nat (length (f :: rest))) (f :: rest) 1 [] [] s)
    as (news & newf & newc & s1 & -> & Hlen & _).
  cbn [app]. split.
  - eexists _, _. split; [reflexivity |].
    unfold counts_agree. cbn [simple_build_result folder_metadata processed
      total_files file_summaries]. by repeat split.
  - destruct (if count_success news >=? min_files_for_aggregation
              then _ else _) as [ov s2].
    eexists _, _. split; [reflexivity |].
    unfold counts_agree. cbn [hierarchical_build_result folder_metadata
      processed total_files file_summaries]. by repeat split.
Qed.

(** C6, as the code has it: a hierarchical run over a folder in which
    target files were found, with a minimum of at least 1, asks the
    client for an aggregation exactly when the number of successful
    file summaries reaches the minimum; the overview is then the
    summary returned or, when that call fails, the message naming the
    reason, and it is never absent.  Below the minimum the overview is
    absent and the client is not called again after the per-file
    calls.  When no target file was found the overview is the
    "no documents" message of the empty result and the client is not
    called at all. *)
Theorem hierarchical_overview min_files_for_aggregation folder_path
    recursive pause_between_files s :
  1 <= min_files_for_aggregation ->
  folder_is_dir folder_path = true ->
  exists r s',
    hierarchical_summarize_folder min_files_for_aggregation folder_path
      recursive pause_between_files s = (inr r, s')
    /\ (target_files folder_path recursive = [] ->
        r = hierarchical_build_empty_result folder_path /\ s' = s)
    /\ (target_files folder_path recursive <> [] ->
        exists s1 per_file,
          calls s1 = calls s ++ per_file
          /\ Forall (fun c => c.2 = (3 # 10)%Q) per_file
          /\ (count_success (file_summaries r) < min_files_for_aggregation ->
              overview r = None /\ s' = s1)
          /\ (min_files_for_aggregation <= count_success (file_summaries r) ->
              let text :=
                aggregation_text path_name
                  (successful_summaries (file_summaries r)) in
              exists result,
                client_summarize text (4 # 10)%Q (env s1) = (result, env s')
                /\ calls s' = calls s1 ++ [(text, (4 # 10)%Q)]
                /\ overview r
                   = (if success result && truthy_opt (summary result)
                      then summary result
                      else Some (aggregation_failed result))
                /\ is_Some (overview r))).
Proof.
  intros Hmin Hdir.
  unfold hierarchical_summarize_folder.
  rewrite Hdir. cbn [negb]. fold (target_files folder_path recursive).
  destruct (target_files folder_path recursive) as [| f rest] eqn:Htargets.
  { eexists _, _. split; [reflexivity |]. split; [done |]. by intros []. }
  unfold_state.
  destruct (files_loop_spec pause_between_files
              (Z.of_nat (length (f :: rest))) (f :: rest) 1 [] [] s)
    as (news & newf & newc & s1 & -> & Hlen & Hpresent & Hcalls & _ & Htemp).
  cbn [app].
  destruct (Z.geb_spec (count_success news) min_files_for_aggregation)
    as [Hge | Hlt].
  - destruct (_aggregate_summaries_spec news s1 Hpresent ltac:(lia))
      as (result & s2 & Hcall & Hcalls2 & -> & Hsome).
    eexists _, _. split; [reflexivity |]. split; [done |]. intros _.
    exists s1, newc. split; [exact Hcalls |]. split; [exact Htemp |].
    cbn [hierarchical_build_result file_summaries overview].
    split; [lia |]. intros _. by exists result.
  - eexists _, _. split; [reflexivity |]. split; [done |]. intros _.
    exists s1, newc. split; [exact Hcalls |]. split; [exact Htemp |].
    cbn [hierarchical_build_result file_summaries overview].
    split; [done | lia].
Qed.

End StrategyFacts.

(** ** Worked examples for the strategies *)

(** A client that answers the successive calls from a script. *)
Definition scripted_client (text : str) (temperature : Q)
    (script : list ModelRequestOutcome)
  : ModelRequestOutcome * list ModelRequestOutcome :=
  match script with
  | [] => (failure_outcome false ["M"] (Some (u "Connection refused")), [])
  | o :: script' => (o, script')
  end.

(** An extractor that knows the text of some files. *)
Definition stored_text (files : list (str * str)) (path : str)
    (script : list ModelRequestOutcome)
  : str * list ModelRequestOutcome :=
  (default [] (snd <$> find (fun f => bool_decide (f.1 = path)) files),
   script).

Definition summarized (text : str) : ModelRequestOutcome :=
  success_outcome (u "prompt") false 0 "M" text.

Definition two_documents : list File :=
  [mkFile (u "docs/a.pdf") (u "a.pdf") (u ".pdf");
   mkFile (u "docs/b.PNG") (u "b.PNG") (u ".PNG");
   mkFile (u "docs/notes.txt") (u "notes.txt") (u ".txt")].

Definition no_documents : list File :=
  [mkFile (u "docs/notes.txt") (u "notes.txt") (u ".txt")].

(** [Path(p).name] for the files of the folder [docs]. *)
Definition name_in_docs (path : str) : str := drop 5 path.

Definition hierarchical_run (found : list File) (min_files : Z)
    (script : list ModelRequestOutcome) :=
  hierarchical_summarize_folder
    (stored_text [(u "docs/a.pdf", u "Договор"); (u "docs/b.PNG", u "Счёт")])
    supported_extensions scripted_client (fun _ => true)
    (fun _ _ => found) name_in_docs (fun _ script => script)
    min_files (u "docs") true 2%Q (mkStrategyState script []).

Definition simple_run (found : list File)
    (script : list ModelRequestOutcome) :=
  simple_summarize_folder
    (stored_text [(u "docs/a.pdf", u "Договор"); (u "docs/b.PNG", u "Счёт")])
    supported_extensions scripted_client (fun _ => true)
    (fun _ _ => found) (fun _ script => script)
    (u "docs") true 2%Q (mkStrategyState script []).

Definition three_answers : list ModelRequestOutcome :=
  [summarized (u "Сводка A"); summarized (u "Сводка B");
   summarized (u "Обзор")].

Lemma folder_result_counts_witness :
  (exists r s',
      simple_run two_documents three_answers = (inr r, s')
      /\ processed (folder_metadata r) = 2
      /\ total_files (folder_metadata r) = 2)
  /\ (exists r s',
         hierarchical_run two_documents 2 three_answers = (inr r, s')
         /\ processed (folder_metadata r) = 2
         /\ total_files (folder_metadata r) = 2).
Proof.
  destruct (folder_result_counts
              (stored_text [(u "docs/a.pdf", u "Договор");
                            (u "docs/b.PNG", u "Счёт")])
              supported_extensions scripted_client (fun _ => true)
              (fun _ _ => two_documents) name_in_docs
              (fun _ script => script) 2 (u "docs") true 2%Q
              (mkStrategyState three_answers []) eq_refl)
    as [(r1 & s1 & Hrun1 & Hp1 & Ht1 & _) (r2 & s2 & Hrun2 & Hp2 & Ht2 & _)].
  split.
  - exists r1, s1. split; [exact Hrun1 |].
    rewrite Hp1, Ht1 by (vm_compute; discriminate).
    vm_compute in Hrun1. injection Hrun1 as <- <-. by vm_compute.
  - exists r2, s2. split; [exact Hrun2 |].
    rewrite Hp2, Ht2 by (vm_compute; discriminate).
    vm_compute in Hrun2. injection Hrun2 as <- <-. by vm_compute.
Defined.

Lemma hierarchical_overview_witness :
  exists r s',
    hierarchical_run two_documents 2 three_answers = (inr r, s')
    /\ overview r = Some (u "Обзор")
    /\ map snd (calls s') = [(3 # 10)%Q; (3 # 10)%Q; (4 # 10)%Q].
Proof.
  destruct (hierarchical_overview
              (stored_text [(u "docs/a.pdf", u "Договор");
                            (u "docs/b.PNG", u "Счёт")])
              supported_extensions scripted_client (fun _ => true)
              (fun _ _ => two_documents) name_in_docs
              (fun _ script => script) 2 (u "docs") true 2%Q
              (mkStrategyState three_answers []))
    as (r & s' & Hrun & _ & Hfound); [lia | reflexivity |].
  exists r, s'. split; [exact Hrun |].
  vm_compute in Hrun. injection Hrun as <- <-.
  split; vm_compute; reflexivity.
Defined.

(** C6 as stated fails for a folder without target files: no file
    summary is a success, which is below the minimum of 2, and yet the
    overview is not absent; it is the message of the empty result.  The
    client is not called. *)
Lemma empty_folder_overview_is_present :
  exists r s',
    hierarchical_run no_documents 2 three_answers = (inr r, s')
    /\ count_success (file_summaries r) < 2
    /\ overview r
       = Some (u "В папке не найдено поддерживаемых документов (.pdf, .jpg, .webp и др.)")
    /\ overview r <> None
    /\ calls s' = [].
Proof.
  eexists _, _. split; [vm_compute; reflexivity |].
  split; [reflexivity |]. split; [reflexivity |]. split; [discriminate | done].
Qed.

(** * Further properties of the client *)

Section ClientRequests.

Context {ids : FutureIds}.

Context {W : Type}.
Variable session_post : Payload -> W -> post_result * W.
Variable time : W -> Q.
Variable sleep : Q -> W -> W.
Variable self : Client.

Local Abbreviation _enforce_rate_limit :=
  (_enforce_rate_limit time sleep self).
Local Abbreviation _request_attempt :=
  (_request_attempt session_post time sleep self).
Local Abbreviation _request := (_request session_post time sleep self).
Local Abbreviation try_models := (try_models session_post time sleep self).
Local Abbreviation summarize := (summarize session_post time sleep self).



End ClientRequests.


(** Every HTTP error status, from 400 to 599, makes the attempt raise an
    exception of the class that the decorator retries: no HTTP error is
    treated as permanent. *)
Theorem http_errors_are_retried (response : Response) :
  400 <= status_code response < 600 ->
  exists e,
    response_result (PostReturns response) = inl e
    /\ retry_if_exception_type e = true.
Proof.
  intros Hstatus. unfold response_result, raise_for_status.
  destruct (Z.eqb_spec (status_code response) 429); [by eexists |].
  destruct (Z.eqb_spec (status_code response) 402); [by eexists |].
  destruct (_ && contains _ _); [by eexists |].
  destruct (Z.geb_spec (status_code response) 400); [| lia].
  destruct (Z.leb_spec 400 (status_code response)); [| lia].
  destruct (Z.ltb_spec (status_code response) 500); cbn [andb];
    [by eexists |].
  destruct (Z.leb_spec 500 (status_code response)); [| lia].
  destruct (Z.ltb_spec (status_code response) 600); [| lia].
  by eexists.
Qed.

Lemma http_errors_are_retried_witness :
  exists e,
    response_result
      (PostReturns (mkResponse 404 (u "Not Found") [] (JsonNoChoices [])))
    = inl e
    /\ retry_if_exception_type e = true.
Proof.
  apply (http_errors_are_retried
           (mkResponse 404 (u "Not Found") [] (JsonNoChoices []))).
  cbn [status_code]. lia.
Defined.

(** [truncated] in the guard is just the comparison of the text with the
    budget. *)
Lemma truncate_text_flag (limit : Z) (t : str) :
  (truncate_text limit t).2 = (len t >? limit).
Proof. unfold truncate_text. by destruct (len t >? limit). Qed.




(** ** White space *)

Lemma lstrip_head (s : str) (c : N) :
  head (lstrip s) = Some c -> is_space c = false.
Proof.
  induction s as [| a s IH]; [done |]. cbn [lstrip].
  destruct (is_space a) eqn:Ha; [exact IH |].
  cbn [head]. by intros [= <-].
Qed.

Lemma lstrip_suffix (s : str) : lstrip s `suffix_of` s.
Proof.
  induction s as [| a s IH]; [done |]. cbn [lstrip].
  destruct (is_space a); [by apply suffix_cons_r | done].
Qed.

Lemma rstrip_prefix (s : str) : rstrip s `prefix_of` s.
Proof.
  unfold rstrip. apply prefix_suffix_reverse.
  rewrite reverse_involutive. apply lstrip_suffix.
Qed.

Lemma rstrip_last (s : str) (c : N) :
  last (rstrip s) = Some c -> is_space c = false.
Proof. unfold rstrip. rewrite last_reverse. apply lstrip_head. Qed.

(** [s.strip()] neither starts nor ends with white space. *)
Lemma strip_ends (s : str) (c : N) :
  head (strip s) = Some c \/ last (strip s) = Some c -> is_space c = false.
Proof.
  unfold strip. intros [Hhead | Hlast]; [| by apply rstrip_last in Hlast].
  destruct (rstrip_prefix (lstrip s)) as [rest Heq].
  destruct (rstrip (lstrip s)) as [| a r]; [done |].
  cbn [head] in Hhead. injection Hhead as ->.
  apply (lstrip_head s). by rewrite Heq.
Qed.

Section ClientOutcomes.

Context {ids : FutureIds}.

Context {W : Type}.
Variable session_post : Payload -> W -> post_result * W.
Variable time : W -> Q.
Variable sleep : Q -> W -> W.
Variable self : Client.

Local Abbreviation _enforce_rate_limit :=
  (_enforce_rate_limit time sleep self).
Local Abbreviation post := (post session_post).
Local Abbreviation _request_attempt :=
  (_request_attempt session_post time sleep self).
Local Abbreviation _request := (_request session_post time sleep self).
Local Abbreviation try_models := (try_models session_post time sleep self).
Local Abbreviation fail_all := (fail_all session_post time sleep self).
Local Abbreviation summarize := (summarize session_post time sleep self).

(** A response that is not an HTTP error decides the request at once,
    after a single POST: its stripped content is returned, and a body
    without choices raises [ValueError], which is not retried. *)
Theorem first_response_decides prompt model temperature s response s1 :
  post (mkPayload model prompt temperature 1500) (_enforce_rate_limit s).2
  = (PostReturns response, s1) ->
  status_code response < 400 ->
  sent s1 = sent s ++ [mkPayload model prompt temperature 1500]
  /\ (forall content,
        json response = JsonContent content ->
        _request prompt model temperature s = (inr (strip content), s1))
  /\ (forall repr,
        json response = JsonNoChoices repr ->
        _request prompt model temperature s
        = (inl (Raised ValueError (u "Некорректный ответ API: " ++ repr)),
           s1)).
Proof.
  intros Hpost Hstatus.
  assert (_request_attempt prompt model temperature s
          = (response_result (PostReturns response), s1)) as Hattempt.
  { unfold _request_attempt. unfold_state.
    destruct (_enforce_rate_limit s) as [[] s0]. cbn [snd] in Hpost.
    by rewrite Hpost. }
  split.
  { pose proof (_request_attempt_sent session_post time sleep self prompt
                  model temperature s) as Hsent.
    by rewrite Hattempt in Hsent. }
  assert (forall r, response_result (PostReturns response) = r ->
            match r with
            | inl e => retry_if_exception_type e = false
            | inr _ => True
            end ->
            _request prompt model temperature s = (r, s1)) as Hdecides.
  { intros r Hr Hfinal. unfold _request. cbn [retrying]. unfold_state.
    rewrite Hattempt, Hr. destruct r as [e | a]; [by rewrite Hfinal | done]. }
  assert (forall j, json response = j ->
            response_result (PostReturns response)
            = match j with
              | JsonRaises e => inl e
              | JsonNoChoices repr =>
                  inl (Raised ValueError
                         (u "Некорректный ответ API: " ++ repr))
              | JsonBadShape e => inl e
              | JsonContent content => inr (strip content)
              end) as Hbody.
  { intros j <-. unfold response_result.
    destruct (Z.eqb_spec (status_code response) 429); [lia |].
    destruct (Z.eqb_spec (status_code response) 402); [lia |].
    destruct (Z.eqb_spec (status_code response) 400); [lia |].
    cbn [andb].
    destruct (Z.geb_spec (status_code response) 400); [lia | done]. }
  split.
  - intros content Hjson. apply Hdecides; [| done].
    by rewrite (Hbody _ Hjson).
  - intros repr Hjson. apply Hdecides; [| done].
    by rewrite (Hbody _ Hjson).
Qed.

(** The outcome of [summarize], success or failure, records whether the
    text exceeded the budget of the first candidate model, and repeats
    its [fallback_used] flag in the metadata.  A failure names the first
    candidate as [model_used] and sets [fallback_used], also when there
    is only one candidate. *)
Theorem summarize_flags text strategy temperature s first rest prompt
    truncated o :
  summarize_setup self text strategy
  = inr (first :: rest, prompt, truncated) ->
  (summarize text strategy temperature s).1 = inr o ->
  md_truncated (metadata o)
  = (len text >? default 25000 (context_limits self !! first))
  /\ md_fallback_used (metadata o) = fallback_used o
  /\ (success o = false ->
      model_used o = first /\ fallback_used o = true)
  /\ (success o = true ->
      md_tokens_input (metadata o) = Some (len prompt / 4)
      /\ model_used o ∈ first :: rest).
Proof.
  intros Hsetup.
  destruct (summarize_setup_inv _ _ _ _ _ _ _ Hsetup) as [_ Htr].
  rewrite truncate_text_flag in Htr.
  unfold summarize. rewrite Hsetup. unfold_state.
  destruct (first_success_or_all_fail session_post time sleep self prompt
              temperature (first :: rest) s)
    as [(errs & s1 & Hf)
       | (b & m & a & errs & s1 & ans & s2 & Heq & Hf & Hr)].
  - rewrite (try_models_failure _ _ _ _ _ _ _ _ _ _ _ _ _ _ Hf).
    cbn [fst]. intros [= <-]. by repeat split.
  - rewrite Heq at 2.
    rewrite (try_models_success _ _ _ _ _ _ _ _ _ _ _ _ _ _ _ _ _ _ Hf Hr).
    cbn [fst]. intros [= <-]. repeat split; try done.
    rewrite Heq. apply elem_of_app. right. left.
Qed.

(** The summary of a successful outcome neither starts nor ends with
    white space. *)
Theorem summary_is_stripped text strategy temperature s o t c :
  (summarize text strategy temperature s).1 = inr o ->
  summary o = Some t ->
  head t = Some c \/ last t = Some c ->
  is_space c = false.
Proof.
  unfold summarize.
  destruct (summarize_setup self text strategy)
    as [e | [[models prompt] truncated]]; [done |].
  unfold_state.
  destruct (first_success_or_all_fail session_post time sleep self prompt
              temperature models s)
    as [(errs & s1 & Hf)
       | (b & m & a & errs & s1 & ans & s2 & Heq & Hf & Hr)].
  - rewrite (try_models_failure _ _ _ _ _ _ _ _ _ _ _ _ _ _ Hf).
    cbn [fst]. by intros [= <-].
  - rewrite Heq at 2.
    rewrite (try_models_success _ _ _ _ _ _ _ _ _ _ _ _ _ _ _ _ _ _ Hf Hr).
    cbn [fst]. intros [= <-] [= <-]. unfold clean_summary. apply strip_ends.
Qed.

End ClientOutcomes.

Lemma first_response_decides_witness :
  _request scripted_post frozen_clock no_sleep (OpenRouterClient "balanced" 5%Q)
    (u "prompt") "M" (3 # 10)%Q (fresh [answers (u "  ok ")])
  = (inr (u "ok"),
     mkClientState [] 0%Q [mkPayload "M" (u "prompt") (3 # 10)%Q 1500]).
Proof.
  destruct (first_response_decides scripted_post frozen_clock no_sleep
              (OpenRouterClient "balanced" 5%Q) (u "prompt") "M" (3 # 10)%Q
              (fresh [answers (u "  ok ")])
              (mkResponse 200 (u "OK") [] (JsonContent (u "  ok ")))
              (mkClientState [] 0%Q
                 [mkPayload "M" (u "prompt") (3 # 10)%Q 1500]))
    as (_ & Hcontent & _); [vm_compute; reflexivity | vm_compute; reflexivity |].
  rewrite (Hcontent _ eq_refl). reflexivity.
Defined.

Lemma summarize_flags_witness :
  exists o,
    (run_summarize (client_with ["A"; "B"] 1000) (u "text") None (3 # 10)%Q
       [server_error; server_error; payment_required; payment_required]).1
    = inr o
    /\ md_truncated (metadata o) = false
    /\ model_used o = "A"
    /\ fallback_used o = true.
Proof.
  eexists. split; [vm_compute; reflexivity |].
  match goal with
  | |- md_truncated (metadata ?o) = _ /\ _ =>
      destruct (summarize_flags scripted_post frozen_clock no_sleep
                  (client_with ["A"; "B"] 1000) (u "text") None (3 # 10)%Q
                  (fresh [server_error; server_error; payment_required;
                          payment_required])
                  "A" ["B"] (_prepare_prompt (u "text")) false o)
        as (Htruncated & _ & Hfailure & _)
  end; [vm_compute; reflexivity | vm_compute; reflexivity |].
  split; [rewrite Htruncated; reflexivity |]. by apply Hfailure.
Defined.

Lemma summary_is_stripped_witness :
  exists o t c,
    (run_summarize (OpenRouterClient "balanced" 5%Q) (u "text") None
       (3 # 10)%Q [answers (u " Summary: ok ")]).1 = inr o
    /\ summary o = Some t
    /\ head t = Some c
    /\ is_space c = false.
Proof.
  eexists _, _, _. split; [vm_compute; reflexivity |].
  split; [reflexivity |]. split; [reflexivity |].
  eapply (summary_is_stripped scripted_post frozen_clock no_sleep
            (OpenRouterClient "balanced" 5%Q) (u "text") None (3 # 10)%Q
            (fresh [answers (u " Summary: ok ")]));
    [vm_compute; reflexivity | reflexivity | left; reflexivity].
Defined.

(** ** Pacing of the requests *)

(** The times [times] are at least [delay] apart, the first of them at
    least [delay] after [previous]. *)
Fixpoint paced (delay previous : Q) (times : list Q) : Prop :=
  match times with
  | [] => True
  | t :: rest => (previous + delay <= t)%Q /\ paced delay t rest
  end.

Lemma paced_app (delay previous : Q) (xs ys : list Q) :
  paced delay previous xs ->
  paced delay (default previous (last xs)) ys ->
  paced delay previous (xs ++ ys).
Proof.
  revert previous. induction xs as [| x xs IH]; intros previous Hxs Hys.
  - exact Hys.
  - destruct Hxs as [Hx Hxs]. cbn [app paced]. split; [exact Hx |].
    apply IH; [exact Hxs |].
    rewrite last_cons in Hys. by destruct (last xs).
Qed.

Section Pacing.

Context {ids : FutureIds}.

(** A backend [session_post] with a clock, observed through a world that
    also records the time of every call of [session.post]. *)
Context {W : Type}.
Variable session_post : Payload -> W -> post_result * W.
Variable time : W -> Q.
Variable sleep : Q -> W -> W.
Variable self : Client.

(** [time.sleep(d)] lets at least [d] seconds pass. *)
Hypothesis sleep_advances :
  forall d w, (0 < d)%Q -> (time w + d <= time (sleep d w))%Q.

Definition timed_post (p : Payload) (w : W * list Q)
  : post_result * (W * list Q) :=
  let (r, w') := session_post p w.1 in (r, (w', w.2 ++ [time w.1])).

Definition timed_time (w : W * list Q) : Q := time w.1.

Definition timed_sleep (d : Q) (w : W * list Q) : W * list Q :=
  (sleep d w.1, w.2).

(** The times at which [session.post] was called so far. *)
Definition posted_at (s : ClientState (W := W * list Q)) : list Q :=
  (world s).2.

Local Abbreviation _request_attempt :=
  (_request_attempt timed_post timed_time timed_sleep self).
Local Abbreviation retrying := (retrying timed_sleep).
Local Abbreviation _request := (_request timed_post timed_time timed_sleep self).
Local Abbreviation try_models :=
  (try_models timed_post timed_time timed_sleep self).
Local Abbreviation summarize :=
  (summarize timed_post timed_time timed_sleep self).

(** The requests [times] were sent from state [s] on, leading to [s']. *)
Definition paced_step (s s' : ClientState (W := W * list Q))
    (times : list Q) : Prop :=
  posted_at s' = posted_at s ++ times
  /\ paced (request_delay self) (last_request_time s) times
  /\ last_request_time s' = default (last_request_time s) (last times).

Lemma paced_step_nil s : paced_step s s [].
Proof. unfold paced_step. rewrite app_nil_r. by repeat split. Qed.

Lemma paced_step_trans s1 s2 s3 xs ys :
  paced_step s1 s2 xs -> paced_step s2 s3 ys -> paced_step s1 s3 (xs ++ ys).
Proof.
  intros (Hp1 & Hpaced1 & Hl1) (Hp2 & Hpaced2 & Hl2).
  split; [by rewrite Hp2, Hp1, app_assoc |]. split.
  - apply paced_app; [exact Hpaced1 |]. by rewrite <- Hl1.
  - rewrite Hl2, Hl1, last_app. by destruct (last ys).
Qed.

Lemma _request_attempt_paced prompt model temperature s :
  exists t, paced_step s (_request_attempt prompt model temperature s).2 [t].
Proof using sleep_advances.
  unfold _request_attempt, _enforce_rate_limit, post, paced_step, posted_at.
  unfold_state. cbv beta iota. cbn [world sent last_request_time].
  set (elapsed := (timed_time (world s) - last_request_time s)%Q).
  set (w := if negb (Qle_bool (request_delay self) elapsed)
            then timed_sleep (request_delay self - elapsed)%Q (world s)
            else world s).
  assert (w.2 = (world s).2) as Hlog.
  { subst w. by destruct (negb _). }
  assert (last_request_time s + request_delay self <= timed_time w)%Q
    as Hwait.
  { subst w. destruct (Qle_bool (request_delay self) elapsed) eqn:Hle;
      cbn [negb].
    - apply Qle_bool_iff in Hle. subst elapsed. lra.
    - assert (~ (request_delay self <= elapsed)%Q) as Hlt.
      { intros H. apply Qle_bool_iff in H. congruence. }
      unfold timed_time, timed_sleep. cbn [fst].
      pose proof (sleep_advances (request_delay self - elapsed)%Q
                    (world s).1 ltac:(lra)) as Hslept.
      subst elapsed. unfold timed_time in *. lra. }
  exists (timed_time w). unfold timed_post.
  destruct (session_post _ w.1) as [r w']. cbn [snd world last_request_time].
  split; [by rewrite Hlog |]. split; [| reflexivity].
  cbn [paced]. split; [exact Hwait | exact I].
Qed.

Lemma retrying_paced {A : Type} (body : State ClientState (exn + A)) :
  (forall s, exists t, paced_step s (body s).2 [t]) ->
  forall retries attempt_number s,
    exists times,
      paced_step s (retrying retries attempt_number body s).2 times.
Proof.
  intros Hbody retries.
  induction retries as [| n IH]; intros attempt_number s;
    cbn [retrying]; unfold_state; destruct (Hbody s) as [t Ht];
    destruct (body s) as [[e | a] s1]; cbn [snd] in Ht.
  - exists [t]. by destruct (retry_if_exception_type e).
  - by exists [t].
  - destruct (retry_if_exception_type e); [| by exists [t]].
    unfold pause. cbv beta iota.
    set (s1' := mkClientState _ _ _).
    assert (paced_step s1 s1' []) as Hpause.
    { subst s1'. unfold paced_step, posted_at. rewrite app_nil_r.
      by repeat split. }
    destruct (IH (Datatypes.S attempt_number) s1') as [times Htimes].
    exists ([t] ++ ([] ++ times)).
    eapply paced_step_trans; [exact Ht |].
    eapply paced_step_trans; [exact Hpause | exact Htimes].
  - by exists [t].
Qed.

Lemma try_models_paced prompt temperature truncated models_to_try rest :
  forall i last_error s,
    exists times,
      paced_step s
        (try_models prompt temperature truncated models_to_try i rest
           last_error s).2 times.
Proof using sleep_advances.
  induction rest as [| m ms IH]; intros i last_error s.
  - exists []. apply paced_step_nil.
  - cbn [try_models]. unfold_state.
    destruct (retrying_paced (_request_attempt prompt m temperature)
                (_request_attempt_paced prompt m temperature) 1%nat 1%nat s)
      as [times1 H1].
    fold (_request prompt m temperature) in H1.
    destruct (_request prompt m temperature s) as [[e | a] s1];
      cbn [snd] in H1.
    + destruct (IH (Datatypes.S i) (Some (str_exn e)) s1) as [times2 H2].
      exists (times1 ++ times2). by eapply paced_step_trans.
    + by exists times1.
Qed.

(** Rate limiting: during a call of [summarize], whatever the models,
    retries and fallbacks, [session.post] is never called sooner than
    [request_delay] seconds after the previous request of the client, and
    the client remembers the time of its last request for the next
    call. *)
Theorem summarize_is_paced text strategy temperature s :
  exists times,
    posted_at (summarize text strategy temperature s).2
    = posted_at s ++ times
    /\ paced (request_delay self) (last_request_time s) times
    /\ last_request_time (summarize text strategy temperature s).2
       = default (last_request_time s) (last times).
Proof using sleep_advances.
  unfold summarize.
  destruct (summarize_setup self text strategy)
    as [e | [[models prompt] truncated]].
  - exists []. apply paced_step_nil.
  - unfold_state.
    destruct (try_models_paced prompt temperature truncated models models
                0%nat None s) as [times Htimes].
    exists times. by destruct (try_models _ _ _ _ _ _ _ s).
Qed.

End Pacing.

(** A scripted backend with a clock: every request takes one second. *)
Definition clock_post (p : Payload) (w : Q * list post_result)
  : post_result * (Q * list post_result) :=
  let (r, script) := scripted_post p w.2 in (r, ((w.1 + 1)%Q, script)).

Definition clock_time (w : Q * list post_result) : Q := w.1.

Definition clock_sleep (d : Q) (w : Q * list post_result)
  : Q * list post_result := ((w.1 + d)%Q, w.2).

Lemma summarize_is_paced_witness :
  exists times,
    posted_at
      (summarize (timed_post clock_post clock_time) (timed_time clock_time)
         (timed_sleep clock_sleep) (OpenRouterClient "fast" 5%Q) (u "text")
         None (3 # 10)%Q
         (mkClientState
            ((0%Q, [server_error; server_error; answers (u "ok")]), [])
            0%Q [])).2 = times
    /\ length times = 3%nat
    /\ paced 5%Q 0%Q times.
Proof.
  destruct (summarize_is_paced clock_post clock_time clock_sleep
              (OpenRouterClient "fast" 5%Q)
              (fun d w _ => Qle_refl (clock_time w + d)%Q)
              (u "text") None (3 # 10)%Q
              (mkClientState
                 ((0%Q, [server_error; server_error; answers (u "ok")]), [])
                 0%Q []))
    as (times & Hposted & Hpaced & _).
  exists times. split; [exact Hposted |]. split; [| exact Hpaced].
  vm_compute in Hposted. apply (f_equal length) in Hposted.
  exact (eq_sym Hposted).
Defined.

(** [get_available_models] lists exactly the models that occur under some
    strategy, each of them once, in ascending order. *)
Theorem get_available_models_spec (self : Client) :
  Sorted string_le (get_available_models self)
  /\ NoDup (get_available_models self)
  /\ (forall model,
        model ∈ get_available_models self
        <-> exists strategy models,
              hierarchy self !! strategy = Some models /\ model ∈ models).
Proof.
  unfold get_available_models. split; [apply Sorted_merge_sort; apply _ |].
  split.
  - rewrite merge_sort_Permutation. apply NoDup_elements.
  - intros model. rewrite merge_sort_Permutation, elem_of_elements,
      elem_of_list_to_set, list_elem_of_join.
    split.
    + intros (models & Hin & Hvalues).
      apply list_elem_of_fmap in Hvalues as ([strategy models'] & -> & Hkv).
      apply elem_of_map_to_list in Hkv. by exists strategy, models'.
    + intros (strategy & models & Hlookup & Hin).
      exists models. split; [exact Hin |].
      apply list_elem_of_fmap. exists (strategy, models).
      split; [reflexivity |]. by apply elem_of_map_to_list.
Qed.

Example get_available_models_shipped :
  get_available_models (OpenRouterClient "balanced" 5%Q)
  = ["google/gemma-2-9b-it:free"; "mistralai/mistral-7b-instruct:nitro";
     "nousresearch/hermes-3-llama-3.1-405b:free"].
Proof. vm_compute. reflexivity. Qed.

(** The key that the constructor works with: the argument and, only when
    the argument is [None], the environment. *)
Definition resolved_key (getenv : option str) (api_key : api_key_arg)
  : option str :=
  match api_key with
  | KeyNone => getenv
  | KeySecret v | KeyStr v => Some v
  end.

Lemma sk_key_shape (key : str) :
  starts_with (u "sk-") key = true ->
  truthy key = true /\ starts_with (u "SecretStr(") key = false.
Proof.
  destruct key as [| c key]; [done |].
  change (u "sk-") with [115; 107; 45]%N.
  change (u "SecretStr(")
    with [83; 101; 99; 114; 101; 116; 83; 116; 114; 40]%N.
  cbn [starts_with truthy]. intros H.
  apply andb_prop in H as [Hc _]. apply N.eqb_eq in Hc as <-. done.
Qed.

(** The constructor succeeds exactly when the key it works with starts
    with ["sk-"]; it then stores that key and sends it as the bearer
    token.  In every other case, also for an empty explicit key when the
    environment holds a valid one, it raises [ValueError]. *)
Theorem init_accepts_exactly_sk_keys (getenv : option str)
    (api_key : api_key_arg) (app_name : str) (default_strategy : string)
    (request_delay : Q) :
  match resolved_key getenv api_key with
  | Some key =>
      if starts_with (u "sk-") key then
        __init__ getenv api_key app_name default_strategy request_delay
        = inr (mkInstance key app_name
                 (OpenRouterClient default_strategy request_delay) 0%Q
                 [("Authorization", u "Bearer " ++ key);
                  ("HTTP-Referer", app_name ++ u ".local");
                  ("X-Title", app_name);
                  ("Content-Type", u "application/json")])
      else
        exists msg,
          __init__ getenv api_key app_name default_strategy request_delay
          = inl (Raised ValueError msg)
  | None =>
      exists msg,
        __init__ getenv api_key app_name default_strategy request_delay
        = inl (Raised ValueError msg)
  end.
Proof.
  assert (forall key,
            starts_with (u "sk-") key = false ->
            negb (truthy_opt (Some key))
            || negb (starts_with (u "sk-") (default [] (Some key))) = true)
    as Hbad.
  { intros key Hkey. cbn [default from_option id]. rewrite Hkey.
    by rewrite orb_true_r. }
  assert (forall key,
            starts_with (u "sk-") key = true ->
            negb (truthy_opt (Some key))
            || negb (starts_with (u "sk-") (default [] (Some key))) = false)
    as Hgood.
  { intros key Hkey. destruct (sk_key_shape key Hkey) as [Htruthy _].
    cbn [default from_option id truthy_opt]. by rewrite Hkey, Htruthy. }
  unfold __init__, resolved_key.
  destruct api_key as [| v | v].
  - destruct getenv as [v |]; [| by eexists].
    destruct (starts_with (u "sk-") v) eqn:Hsk.
    + destruct (sk_key_shape v Hsk) as [Htruthy ->].
      rewrite (Hgood v Hsk). cbn [truthy_opt]. rewrite Htruthy.
      cbn [truthy_opt negb]. rewrite Htruthy. reflexivity.
    + destruct (starts_with (u "SecretStr(") v); [by eexists |].
      rewrite (Hbad v Hsk). by eexists.
  - destruct (starts_with (u "sk-") v) eqn:Hsk.
    + destruct (sk_key_shape v Hsk) as [Htruthy _].
      rewrite (Hgood v Hsk). cbn [truthy_opt]. rewrite Htruthy.
      cbn [truthy_opt negb]. rewrite Htruthy. reflexivity.
    + rewrite (Hbad v Hsk). by eexists.
  - destruct (starts_with (u "sk-") v) eqn:Hsk.
    + destruct (sk_key_shape v Hsk) as [Htruthy ->].
      rewrite (Hgood v Hsk). cbn [truthy_opt]. rewrite Htruthy.
      cbn [truthy_opt negb]. rewrite Htruthy. reflexivity.
    + destruct (starts_with (u "SecretStr(") v); [by eexists |].
      rewrite (Hbad v Hsk). by eexists.
Qed.


Lemma init_client (getenv : option str) (api_key : api_key_arg)
    (app_name : str) (default_strategy : string) (request_delay : Q)
    (c : OpenRouterInstance) :
  __init__ getenv api_key app_name default_strategy request_delay = inr c ->
  inst_client c = OpenRouterClient default_strategy request_delay.
Proof.
  unfold __init__. repeat case_match; intros [= <-]; reflexivity.
Qed.

(** What the factory methods do on the logger: they fail with the
    exception of [utils.get_logger] when the logger cannot be created,
    and otherwise go on with the logger cached. *)
Lemma get_logger_cached getenv open_log_files self logger self' :
  get_logger open_log_files self = (inr logger, self') ->
  factory_config self' = factory_config self
  /\ get_logger open_log_files self' = (inr logger, self')
  /\ get_extractor open_log_files self
     = (inr (mkDocumentExtractor logger
               (extraction_ocr_lang (factory_config self))), self')
  /\ get_client getenv open_log_files self'
     = (__init__ getenv
          (KeySecret (openrouter_api_key (factory_config self)))
          (u "ocr-app") "balanced"
          (openrouter_request_delay (factory_config self)), self').
Proof.
  unfold get_client, get_extractor, get_logger. unfold_state.
  destruct (_logger self) as [cached |] eqn:Hcached.
  - intros [= <- <-]. rewrite Hcached. by repeat split.
  - destruct (utils_get_logger _ _ _) as [e | l]; [discriminate |].
    intros [= <- <-]. cbn [_logger factory_config]. by repeat split.
Qed.

(** A factory without a logger creates one with the threshold of its
    configuration, provided the log files can be opened. *)
Lemma get_logger_threshold open_log_files self :
  _logger self = None ->
  open_log_files (logging_log_dir (factory_config self)) = None ->
  (get_logger open_log_files self).1
  = inr (factory_logger_level (factory_config self)).
Proof.
  intros Hnone Hopen. unfold get_logger, utils_get_logger.
  rewrite Hnone, Hopen. reflexivity.
Qed.

Lemma get_logger_raises getenv open_log_files self e self' :
  get_logger open_log_files self = (inl e, self') ->
  (get_strategy getenv open_log_files self).1 = inl e
  /\ (get_client getenv open_log_files self).1 = inl e.
Proof.
  unfold get_strategy, get_client, get_extractor. unfold_state.
  by intros ->.
Qed.

(** A strategy name that passed [validate_strategy], in whatever case it
    was written, always selects the strategy class of that name: for a
    validated configuration the branch of [get_strategy] that raises
    for an unknown strategy is never taken.  [get_strategy] then raises
    only what the creation of the logger raises (an error of the file
    system) or what the client's constructor raises, and otherwise
    returns the strategy of the configured name with the extractor and
    the client. *)
Theorem validated_strategy_is_built (set_repr : list str -> str)
    (getenv : option str) (open_log_files : str -> option exn)
    (self : ComponentFactory) (v : str) :
  let config := factory_config self in
  validate_strategy set_repr v = inr (summarization_strategy config) ->
  summarization_strategy config = lower v
  /\ match (get_logger open_log_files self).1 with
     | inl e => (get_strategy getenv open_log_files self).1 = inl e
     | inr logger =>
         match __init__ getenv (KeySecret (openrouter_api_key config))
                 (u "ocr-app") "balanced" (openrouter_request_delay config)
         with
         | inl e => (get_strategy getenv open_log_files self).1 = inl e
         | inr client =>
             exists strategy,
               (get_strategy getenv open_log_files self).1
               = inr (strategy,
                      mkDocumentExtractor logger (extraction_ocr_lang config),
                      client)
               /\ u (get_strategy_name strategy)
                  = summarization_strategy config
         end
     end.
Proof.
  intros config. unfold validate_strategy.
  destruct (bool_decide (lower v ∈ [u "hierarchical"; u "simple"])) eqn:Hin;
    [| done].
  intros [= Heq]. split; [done |].
  apply bool_decide_eq_true in Hin. rewrite Heq in Hin.
  destruct (get_logger open_log_files self) as [[e | logger] self'] eqn:Hlog;
    cbn [fst].
  { by apply (get_logger_raises getenv) in Hlog as [? _]. }
  destruct (get_logger_cached getenv _ _ _ _ Hlog)
    as (Hconfig & _ & Hextractor & Hclient).
  unfold get_strategy. unfold_state. rewrite Hextractor, Hclient.
  fold config.
  destruct (__init__ getenv _ _ _ _) as [e | client]; [reflexivity |].
  rewrite Hconfig. fold config.
  destruct (decide (summarization_strategy config = u "hierarchical"))
    as [Hh | Hh]; [by eexists |].
  destruct (decide (summarization_strategy config = u "simple"))
    as [Hs | Hs]; [by eexists |].
  apply elem_of_cons in Hin as [Hin | Hin]; [done |].
  apply elem_of_cons in Hin as [Hin | Hin]; [done |].
  by apply elem_of_nil in Hin.
Qed.

(** A factory for a configuration with the strategy ["simple"], whose
    logger has not been created yet. *)
Definition example_factory : ComponentFactory :=
  mkComponentFactory
    (mkAppConfig (u "info") (u "logs") (u "sk-or-v1-abc") 5%Q (u "simple") 2
       (u "rus+eng"))
    None.

Lemma validated_strategy_is_built_witness :
  exists extractor client,
    (get_strategy (Some (u "sk-or-v1-env")) (fun _ => None)
       example_factory).1
    = inr (SimpleSummarizationStrategy, extractor, client).
Proof.
  pose proof (validated_strategy_is_built (fun _ => [])
                (Some (u "sk-or-v1-env")) (fun _ => None) example_factory
                (u "Simple")) as Hbuilt.
  cbv zeta in Hbuilt.
  destruct Hbuilt as [_ Hbuilt]; [vm_compute; reflexivity |].
  destruct (get_logger _ example_factory) as [[e | logger] self'] eqn:Hlog;
    [vm_compute in Hlog; discriminate |].
  cbn [fst] in Hbuilt.
  destruct (__init__ _ _ _ _ _) as [e | client] eqn:Hclient;
    [vm_compute in Hclient; discriminate |].
  destruct Hbuilt as (strategy & Hbuilt & Hname).
  eexists _, client. rewrite Hbuilt. do 3 f_equal.
  destruct strategy; [reflexivity | vm_compute in Hname; discriminate].
Defined.

Lemma MODEL_HIERARCHY_other (name : string) :
  name <> "premium" -> name <> "balanced" -> name <> "fast" ->
  MODEL_HIERARCHY !! name = None.
Proof.
  intros Hp Hb Hf. unfold MODEL_HIERARCHY.
  rewrite !lookup_insert_ne by done. by apply lookup_singleton_ne.
Qed.

Lemma balanced_by_default_setup (request_delay : Q) (text : str)
    (strategy : option string) :
  strategy <> Some "premium" -> strategy <> Some "fast" ->
  summarize_setup (OpenRouterClient "balanced" request_delay) text strategy
  = summarize_setup (OpenRouterClient "balanced" request_delay) text
      (Some "balanced").
Proof.
  intros Hp Hf. unfold summarize_setup, effective_strategy.
  cbn [hierarchy context_limits default_strategy OpenRouterClient].
  destruct (decide ("balanced" = "")); [done |].
  destruct strategy as [name |]; [| reflexivity].
  destruct (decide (name = "")); [reflexivity |].
  destruct (decide (name = "balanced")) as [-> | Hb]; [reflexivity |].
  rewrite (MODEL_HIERARCHY_other name) by congruence.
  reflexivity.
Qed.

Section FactoryClient.

Context {ids : FutureIds}.

Context {W : Type}.
Variable session_post : Payload -> W -> post_result * W.
Variable time : W -> Q.
Variable sleep : Q -> W -> W.

(** The client that the factory builds has the default strategy
    ["balanced"]: a call without strategy, with an empty name or with any
    name other than ["premium"] and ["fast"] behaves as the call for
    ["balanced"]. *)
Theorem factory_client_is_balanced (getenv : option str)
    (open_log_files : str -> option exn) (self : ComponentFactory)
    (client : OpenRouterInstance) (text : str) (strategy : option string)
    (temperature : Q) (s : ClientState) :
  (get_client getenv open_log_files self).1 = inr client ->
  strategy <> Some "premium" -> strategy <> Some "fast" ->
  summarize session_post time sleep (inst_client client) text strategy
    temperature s
  = summarize session_post time sleep (inst_client client) text
      (Some "balanced") temperature s.
Proof.
  intros Hclient Hp Hf.
  destruct (get_logger open_log_files self) as [[e | logger] self'] eqn:Hlog.
  { apply (get_logger_raises getenv) in Hlog as [_ Hraises].
    rewrite Hraises in Hclient. discriminate. }
  unfold get_client in Hclient. unfold_state. rewrite Hlog in Hclient.
  cbn [fst] in Hclient.
  apply init_client in Hclient. rewrite Hclient.
  unfold summarize. by rewrite (balanced_by_default_setup _ text strategy).
Qed.

End FactoryClient.

Lemma factory_client_is_balanced_witness :
  exists client,
    (get_client None (fun _ => None) example_factory).1 = inr client
    /\ summarize scripted_post frozen_clock no_sleep (inst_client client)
         (u "text") (Some "") (3 # 10)%Q (fresh [answers (u "ok")])
       = summarize scripted_post frozen_clock no_sleep (inst_client client)
           (u "text") (Some "balanced") (3 # 10)%Q (fresh [answers (u "ok")]).
Proof.
  eexists. split; [vm_compute; reflexivity |].
  apply (factory_client_is_balanced scripted_post frozen_clock no_sleep None
           (fun _ => None) example_factory);
    [vm_compute; reflexivity | discriminate | discriminate].
Defined.

(** ** The extractor on files and folders *)

Lemma lstrip_fixed (s : str) :
  (forall c, head s = Some c -> is_space c = false) -> lstrip s = s.
Proof.
  destruct s as [| a s]; [done |]. intros H. cbn [lstrip].
  by rewrite (H a).
Qed.

Lemma rstrip_fixed (s : str) :
  (forall c, last s = Some c -> is_space c = false) -> rstrip s = s.
Proof.
  intros H. unfold rstrip. rewrite lstrip_fixed.
  - apply reverse_involutive.
  - intros c Hc. apply H. by rewrite <- head_reverse.
Qed.

Lemma strip_fixed (s : str) :
  (forall c, head s = Some c \/ last s = Some c -> is_space c = false) ->
  strip s = s.
Proof.
  intros H. unfold strip.
  rewrite lstrip_fixed by (intros c Hc; apply H; by left).
  apply rstrip_fixed. intros c Hc. apply H. by right.
Qed.

Lemma strip_idemp (s : str) : strip (strip s) = strip s.
Proof. apply strip_fixed. apply strip_ends. Qed.

Section ExtractorResults.

Variable path_exists : str -> bool.
Variable path_suffix : str -> str.
Variable pdfplumber_open : str -> pdf_file.
Variable Image_open : str -> exn + image.
Variable ocr_lang : str.

Local Abbreviation _extract_pdf := (_extract_pdf pdfplumber_open).
Local Abbreviation _extract_image := (_extract_image Image_open ocr_lang).
Local Abbreviation extract_file :=
  (extract_file path_exists path_suffix pdfplumber_open Image_open ocr_lang).

(** The text that [extract_file] returns for a path; the log it is
    called with plays no part in it. *)
Definition extracted_text (file_path : str) : str :=
  match (extract_file file_path []).1 with
  | inr text => text
  | inl _ => []
  end.

Lemma _extract_pdf_text path :
  exists text new,
    (forall log0, _extract_pdf path log0 = (inr (strip text), log0 ++ [new]))
    /\ (new = INFO \/ new = ERROR).
Proof.
  unfold _extract_pdf, logged. unfold_state.
  destruct (pdfplumber_open path) as [e | pages].
  { exists [], ERROR. split; [reflexivity | by right]. }
  destruct (pdf_pages 1 pages []) as [text [e |]].
  - exists text, ERROR. split; [reflexivity | by right].
  - exists text, INFO. split; [reflexivity | by left].
Qed.

Lemma _extract_image_text path :
  exists text new,
    (forall log0,
        _extract_image path log0 = (inr (strip text), log0 ++ [new]))
    /\ (new = INFO \/ new = ERROR).
Proof.
  unfold _extract_image, logged. unfold_state.
  destruct (Image_open path) as [e | img].
  { exists [], ERROR. split; [reflexivity | by right]. }
  destruct (if bool_decide _ then _ else _) as [e |].
  { exists [], ERROR. split; [reflexivity | by right]. }
  destruct (image_to_string img ocr_lang) as [e | text].
  { exists [], ERROR. split; [reflexivity | by right]. }
  exists text, INFO. split; [reflexivity | by left].
Qed.

Lemma extract_file_text file_path :
  exists text new,
    (forall log0,
        extract_file file_path log0 = (inr (strip text), log0 ++ new))
    /\ (1 <= length new <= 2)%nat.
Proof.
  unfold extract_file, logged. unfold_state.
  destruct (path_exists file_path); cbn [negb].
  2: { exists [], [WARNING]. split; [reflexivity | cbn; lia]. }
  destruct (ext_in _ SUPPORTED_PDF_EXTS).
  - destruct (_extract_pdf_text file_path) as (t & new & H & _).
    exists t, [new].
    split; [intros log0; rewrite H; reflexivity | cbn; lia].
  - destruct (ext_in _ SUPPORTED_IMAGE_EXTS).
    + destruct (_extract_image_text file_path) as (t & new & H & _).
      exists t, [new].
      split; [intros log0; rewrite H; reflexivity | cbn; lia].
    + exists [], [INFO]. split; [reflexivity | cbn; lia].
Qed.

Lemma extract_file_extracted file_path log :
  exists log',
    extract_file file_path log = (inr (extracted_text file_path), log').
Proof.
  unfold extracted_text.
  destruct (extract_file_text file_path) as (t & new & H & _).
  rewrite !H. by eexists.
Qed.

(** Whatever the file and whatever goes wrong, [extract_file] returns
    a string that is already stripped: it neither starts nor ends with
    white space, so the callers' test [text.strip()] is a test of the
    text itself.  One or two lines are written to the log. *)
Theorem extract_file_is_stripped (file_path : str) (log : list level) :
  exists text new,
    extract_file file_path log = (inr text, log ++ new)
    /\ strip text = text
    /\ (forall c, head text = Some c \/ last text = Some c ->
                  is_space c = false)
    /\ (1 <= length new <= 2)%nat.
Proof.
  destruct (extract_file_text file_path) as (t & new & H & Hlen).
  exists (strip t), new. split; [apply H |].
  split; [apply strip_idemp |]. split; [apply strip_ends | exact Hlen].
Qed.

Lemma pdf_pages_textless (pages : list (exn + option str)) :
  Forall (fun p => p = inr None \/ p = inr (Some [])) pages ->
  forall page_num text, pdf_pages page_num pages text = (text, None).
Proof.
  induction 1 as [| p pages [-> | ->] _ IH]; intros page_num text;
    [reflexivity | apply IH | apply IH].
Qed.

(** A PDF without a text layer (every page gives no text, as for a
    scan) is reported as extracted: the result is the empty string, the
    only log line is the INFO line of a successful extraction, and no
    recognition is attempted on it. *)
Theorem textless_pdf_is_extracted_as_empty (file_path : str)
    (pages : list (exn + option str)) (log : list level) :
  path_exists file_path = true ->
  lower (path_suffix file_path) = u ".pdf" ->
  pdfplumber_open file_path = PdfPages pages ->
  Forall (fun p => p = inr None \/ p = inr (Some [])) pages ->
  extract_file file_path log = (inr [], log ++ [INFO]).
Proof.
  intros Hex Hext Hopen Hpages.
  unfold extract_file, _extract_pdf, logged. unfold_state.
  rewrite Hex, Hext, Hopen. cbn [negb].
  change (ext_in (u ".pdf") SUPPORTED_PDF_EXTS) with true. cbv beta iota.
  rewrite (pdf_pages_textless pages Hpages). reflexivity.
Qed.

End ExtractorResults.

Section ExtractFolderFacts.

Variable path_exists : str -> bool.
Variable path_suffix : str -> str.
Variable pdfplumber_open : str -> pdf_file.
Variable Image_open : str -> exn + image.
Variable ocr_lang : str.
Variable folder_is_dir : str -> bool.
Variable glob : str -> bool -> list File.

Local Abbreviation extracted_text :=
  (extracted_text path_exists path_suffix pdfplumber_open Image_open
     ocr_lang).
Local Abbreviation extract_loop :=
  (extract_loop path_exists path_suffix pdfplumber_open Image_open ocr_lang).
Local Abbreviation extract_folder :=
  (extract_folder path_exists path_suffix pdfplumber_open Image_open
     ocr_lang folder_is_dir glob).

(** A file whose extracted text is blank. *)
Definition blank (f : File) : Prop :=
  truthy (strip (extracted_text (f_path f))) = false.

#[local] Instance blank_dec (f : File) : Decision (blank f).
Proof. unfold blank. apply _. Defined.

(** The entries that the loop puts into [content], last write wins. *)
Definition stored (files : list File) (content : gmap str str)
  : gmap str str :=
  foldl (fun m f => <[f_relative f := extracted_text (f_path f)]> m)
    content (filter (fun f => ~ blank f) files).

Lemma extract_loop_spec files :
  forall content failed_files log,
    exists log',
      extract_loop files content failed_files log
      = (inr (stored files content,
              failed_files ++ (f_relative <$> filter blank files)), log').
Proof.
  induction files as [| f rest IH]; intros content failed_files log.
  - exists log. cbn [extract_loop]. unfold stored.
    rewrite !filter_nil, fmap_nil, app_nil_r. reflexivity.
  - cbn [extract_loop]. unfold_state.
    destruct (extract_file_extracted path_exists path_suffix pdfplumber_open
                Image_open ocr_lang (f_path f) log) as (log1 & ->).
    unfold stored. rewrite !filter_cons.
    destruct (truthy (strip (extracted_text (f_path f)))) eqn:Htext.
    + rewrite decide_True by (unfold blank; congruence).
      rewrite decide_False by (unfold blank; congruence).
      cbn [foldl]. apply IH.
    + rewrite decide_False by (unfold blank; intros H; by apply H).
      rewrite decide_True by exact Htext.
      destruct (IH content (failed_files ++ [f_relative f]) log1)
        as (log' & ->).
      exists log'. rewrite fmap_cons, <- app_assoc. reflexivity.
Qed.

Lemma stored_lookup_fresh (l : list File) (P : File -> str) :
  forall (m : gmap str str) k,
    k ∉ (f_relative <$> l) ->
    foldl (fun m f => <[f_relative f := P f]> m) m l !! k = m !! k.
Proof.
  induction l as [| f l IH]; intros m k Hk; [reflexivity |].
  cbn [foldl]. rewrite fmap_cons, not_elem_of_cons in Hk.
  destruct Hk as [Hne Hk]. rewrite IH by done.
  by rewrite lookup_insert_ne.
Qed.

Lemma stored_lookup (l : list File) (P : File -> str) :
  forall (m : gmap str str) f,
    NoDup (f_relative <$> l) -> f ∈ l ->
    foldl (fun m f => <[f_relative f := P f]> m) m l !! f_relative f
    = Some (P f).
Proof.
  induction l as [| g l IH]; intros m f Hnd Hf; [by apply elem_of_nil in Hf |].
  rewrite fmap_cons in Hnd. apply NoDup_cons in Hnd as [Hg Hnd].
  cbn [foldl]. apply elem_of_cons in Hf as [-> | Hf].
  - rewrite stored_lookup_fresh by done. apply lookup_insert_eq.
  - by apply IH.
Qed.

Lemma stored_size (l : list File) (P : File -> str) :
  forall (m : gmap str str),
    NoDup (f_relative <$> l) ->
    (forall f, f ∈ l -> m !! f_relative f = None) ->
    size (foldl (fun m f => <[f_relative f := P f]> m) m l)
    = (size m + length l)%nat.
Proof.
  induction l as [| g l IH]; intros m Hnd Hfresh; [cbn; lia |].
  rewrite fmap_cons in Hnd. apply NoDup_cons in Hnd as [Hg Hnd].
  cbn [foldl length]. rewrite IH; [| done |].
  - rewrite map_size_insert_None by (apply Hfresh; left). lia.
  - intros f Hf. rewrite lookup_insert_ne; [apply Hfresh; by right |].
    intros Heq. apply Hg. rewrite Heq. by apply list_elem_of_fmap_2.
Qed.

Lemma stored_dom (l : list File) (P : File -> str) :
  forall (m : gmap str str) k,
    is_Some (foldl (fun m f => <[f_relative f := P f]> m) m l !! k) ->
    is_Some (m !! k) \/ exists f, f ∈ l /\ k = f_relative f.
Proof.
  induction l as [| g l IH]; intros m k Hk; [by left |].
  cbn [foldl] in Hk. apply IH in Hk as [Hk | (f & Hf & ->)].
  - destruct (decide (f_relative g = k)) as [<- | Hne].
    + right. exists g. split; [left | reflexivity].
    + left. by rewrite lookup_insert_ne in Hk.
  - right. exists f. split; [by right | reflexivity].
Qed.

Lemma filter_split_length (l : list File) :
  (length (filter (fun f => ~ blank f) l) + length (filter blank l)
   = length l)%nat.
Proof.
  induction l as [| f l IH]; [reflexivity |]. rewrite !filter_cons.
  destruct (decide (blank f)); destruct (decide (~ blank f));
    cbn [length]; first [lia | done].
Qed.

(** [extract_folder] on an existing folder accounts for every regular
    file it finds, whatever its extension: [failed] lists, in traversal
    order, the relative paths of the files whose text is blank (a file
    of an unsupported format among them), [content] maps the relative
    path of every other file to its text, and [processed] and the
    length of [failed] add up to [total_files].  The relative paths of
    the files of one folder are distinct. *)
Theorem extract_folder_accounts_for_every_file (folder_path : str)
    (recursive : bool) (log : list level) :
  folder_is_dir folder_path = true ->
  NoDup (f_relative <$> glob folder_path recursive) ->
  let files := glob folder_path recursive in
  exists r log',
    extract_folder folder_path recursive log = (inr r, log')
    /\ ex_total_files r = Z.of_nat (length files)
    /\ ex_failed r = f_relative <$> filter blank files
    /\ (forall f, f ∈ files -> ~ blank f ->
          ex_content r !! f_relative f = Some (extracted_text (f_path f)))
    /\ (forall k, is_Some (ex_content r !! k) ->
          exists f, f ∈ files /\ ~ blank f /\ k = f_relative f)
    /\ ex_processed r + Z.of_nat (length (ex_failed r)) = ex_total_files r
    /\ (forall f, f ∈ files -> path_exists (f_path f) = true ->
          lower (path_suffix (f_path f)) ∉ SUPPORTED_PDF_EXTS ->
          lower (path_suffix (f_path f)) ∉ SUPPORTED_IMAGE_EXTS ->
          f_relative f ∈ ex_failed r).
Proof.
  intros Hdir Hnd files. unfold extract_folder, logged. unfold_state.
  rewrite Hdir. cbn [negb]. fold files.
  destruct (extract_loop_spec files ∅ [] (log ++ [INFO])) as (log' & ->).
  cbn [app]. eexists _, log'. split; [reflexivity |].
  cbn [ex_total_files ex_failed ex_content ex_processed].
  assert (NoDup (f_relative <$> filter (fun f => ~ blank f) files)) as Hnd'.
  { eapply sublist_NoDup; [exact Hnd |].
    apply fmap_sublist, sublist_filter. }
  split; [reflexivity |]. split; [reflexivity |].
  split.
  { intros f Hf Hblank. unfold stored.
    apply (stored_lookup _ (fun f => extracted_text (f_path f))); [done |].
    by apply list_elem_of_filter. }
  split.
  { intros k Hk. apply stored_dom in Hk as [Hk | (f & Hf & ->)].
    - rewrite lookup_empty in Hk. by destruct Hk.
    - apply list_elem_of_filter in Hf as [Hb Hf]. by exists f. }
  split.
  { unfold stored. rewrite stored_size, map_size_empty, length_fmap; [| done |].
    - pose proof (filter_split_length files). lia.
    - intros f _. apply lookup_empty. }
  intros f Hf Hex Hpdf Himg.
  apply list_elem_of_fmap_2, list_elem_of_filter. split; [| done].
  unfold blank, extracted_text.
  rewrite (extract_file_unsupported path_exists path_suffix pdfplumber_open
             Image_open ocr_lang (f_path f) [] Hex Hpdf Himg).
  reflexivity.
Qed.

End ExtractFolderFacts.

Lemma textless_pdf_is_extracted_as_empty_witness :
  extract_file (fun _ => true) (fun _ => u ".PDF")
    (fun _ => PdfPages [inr None; inr (Some [])])
    (fun _ => inl (Raised OtherException (u "cannot identify image file")))
    (u "rus+eng") (u "scan.PDF") []
  = (inr [], [] ++ [INFO]).
Proof.
  apply (textless_pdf_is_extracted_as_empty (fun _ => true)
           (fun _ => u ".PDF") (fun _ => PdfPages [inr None; inr (Some [])])
           _ _ (u "scan.PDF") [inr None; inr (Some [])] []).
  - reflexivity.
  - vm_compute. reflexivity.
  - reflexivity.
  - constructor; [by left |]. constructor; [by right |]. constructor.
Defined.

(** A folder with a readable PDF and a text file. *)
Definition docs_suffix (path : str) : str :=
  if decide (path = u "docs/a.pdf") then u ".pdf" else u ".txt".

Definition docs_glob (folder_path : str) (recursive : bool) : list File :=
  [mkFile (u "docs/a.pdf") (u "a.pdf") (u ".pdf");
   mkFile (u "docs/notes.txt") (u "notes.txt") (u ".txt")].

Lemma extract_folder_accounts_for_every_file_witness :
  exists r log',
    extract_folder (fun _ => true) docs_suffix
      (fun _ => PdfPages [inr (Some (u "Договор аренды"))])
      (fun _ => inl (Raised OtherException (u "cannot identify image file")))
      (u "rus+eng") (fun _ => true) docs_glob (u "docs") true []
    = (inr r, log')
    /\ ex_total_files r = 2
    /\ ex_processed r = 1
    /\ ex_failed r = [u "notes.txt"].
Proof.
  destruct (extract_folder_accounts_for_every_file (fun _ => true)
              docs_suffix
              (fun _ => PdfPages [inr (Some (u "Договор аренды"))])
              (fun _ => inl (Raised OtherException
                               (u "cannot identify image file")))
              (u "rus+eng") (fun _ => true) docs_glob (u "docs") true [])
    as (r & log' & Hrun & Htotal & Hfailed & _ & _ & Hsum & _).
  - reflexivity.
  - apply (bool_decide_unpack _). vm_compute. exact I.
  - exists r, log'. split; [exact Hrun |].
    assert (ex_failed r = [u "notes.txt"]) as Hf.
    { rewrite Hfailed. vm_compute. reflexivity. }
    rewrite Hf in Hsum. rewrite Htotal in Hsum |- *.
    change (Z.of_nat (length (docs_glob (u "docs") true))) with 2 in *.
    change (Z.of_nat (length [u "notes.txt"])) with 1 in Hsum.
    split; [reflexivity |]. split; [lia | exact Hf].
Defined.

(** ** Folder runs of both strategies *)

(** The summary of a file whose text is blank. *)
Definition empty_summary (f : File) : FileSummary :=
  mkFileSummary (f_path f) StatusEmpty None None 0 0 None None.

(** The target files whose summary did not succeed. *)
Definition unsuccessful (targets : list File)
    (file_summaries : list FileSummary) : list File :=
  fst <$> filter (fun p => fs_status p.2 <> StatusSuccess)
            (zip targets file_summaries).

Lemma unsuccessful_count (targets : list File) :
  forall file_summaries,
    length targets = length file_summaries ->
    count_success file_summaries
    + Z.of_nat (length (unsuccessful targets file_summaries))
    = Z.of_nat (length file_summaries).
Proof.
  unfold count_success, unsuccessful.
  induction targets as [| f targets IH]; intros [| fs rest] Hlen;
    try discriminate; [reflexivity |].
  cbn [length] in Hlen. injection Hlen as Hlen. specialize (IH rest Hlen).
  cbn [zip zip_with]. rewrite !filter_cons. cbn [snd].
  destruct (decide (fs_status fs = StatusSuccess));
    destruct (decide (fs_status fs <> StatusSuccess)); try done;
    rewrite ?fmap_cons; cbn [length]; rewrite length_fmap in *; lia.
Qed.

Lemma count_success_all_empty (files : list File) :
  count_success (empty_summary <$> files) = 0.
Proof.
  unfold count_success.
  induction files as [| f files IH]; [reflexivity |].
  rewrite fmap_cons, filter_cons. cbn [empty_summary fs_status].
  rewrite decide_False by discriminate. exact IH.
Qed.

Lemma successful_summaries_all_empty (files : list File) :
  successful_summaries (empty_summary <$> files) = [].
Proof.
  unfold successful_summaries.
  induction files as [| f files IH]; [reflexivity |].
  rewrite fmap_cons, filter_cons. cbn [empty_summary fs_status].
  rewrite decide_False by (by intros [? _]). exact IH.
Qed.

Lemma unsuccessful_all_empty (files : list File) :
  unsuccessful files (empty_summary <$> files) = files.
Proof.
  unfold unsuccessful.
  induction files as [| f files IH]; [reflexivity |].
  rewrite fmap_cons. cbn [zip zip_with]. rewrite filter_cons.
  cbn [snd empty_summary fs_status].
  rewrite decide_True by discriminate. rewrite fmap_cons. cbn [fst].
  f_equal. exact IH.
Qed.

Section FolderRuns.

Context {S : Type}.
Variable extractor_extract_file : str -> State S str.
Variable extractor_supported_extensions : list str.
Variable client_summarize : str -> Q -> State S ModelRequestOutcome.
Variable folder_is_dir : str -> bool.
Variable glob : str -> bool -> list File.
Variable path_name : str -> str.
Variable sleep : Q -> S -> S.

Local Abbreviation _summarize_single_file :=
  (_summarize_single_file extractor_extract_file client_summarize).
Local Abbreviation files_loop :=
  (files_loop extractor_extract_file client_summarize sleep).
Local Abbreviation target_files :=
  (target_files extractor_supported_extensions glob).
Local Abbreviation _aggregate_summaries :=
  (_aggregate_summaries client_summarize path_name).
Local Abbreviation simple_summarize_folder :=
  (simple_summarize_folder extractor_extract_file
     extractor_supported_extensions client_summarize folder_is_dir glob
     sleep).
Local Abbreviation hierarchical_summarize_folder :=
  (hierarchical_summarize_folder extractor_extract_file
     extractor_supported_extensions client_summarize folder_is_dir glob
     path_name sleep).
Local Abbreviation strategy_summarize_folder :=
  (strategy_summarize_folder extractor_extract_file
     extractor_supported_extensions client_summarize folder_is_dir glob
     path_name sleep).
Local Abbreviation engine_summarize_folder :=
  (engine_summarize_folder extractor_extract_file
     extractor_supported_extensions client_summarize folder_is_dir glob
     path_name sleep).

Lemma _summarize_single_file_file file_path s :
  fs_file (_summarize_single_file file_path s).1 = f_path file_path.
Proof.
  unfold _summarize_single_file, extract, call_client. unfold_state.
  destruct (extractor_extract_file (f_path file_path) (env s)) as [text e].
  destruct (truthy (strip text)); cbn [negb]; [| reflexivity].
  destruct (client_summarize text (3 # 10)%Q _) as [result e'].
  by destruct (success result && truthy_opt (summary result)).
Qed.

Lemma _summarize_single_file_blank file_path s :
  truthy (strip (extractor_extract_file (f_path file_path) (env s)).1)
  = false ->
  exists s',
    _summarize_single_file file_path s = (empty_summary file_path, s')
    /\ calls s' = calls s.
Proof.
  unfold _summarize_single_file, extract. unfold_state.
  destruct (extractor_extract_file (f_path file_path) (env s)) as [text e].
  cbn [fst]. intros ->. cbn [negb]. by eexists.
Qed.

(** The loop names each summary after its file and lists the files
    whose summary did not succeed. *)
Lemma files_loop_failed pause total files :
  forall i file_summaries failed_files s,
    exists new_summaries s',
      files_loop pause total i files file_summaries failed_files s
      = ((file_summaries ++ new_summaries,
          failed_files
            ++ (f_relative <$> unsuccessful files new_summaries)), s')
      /\ fs_file <$> new_summaries = f_path <$> files.
Proof.
  induction files as [| f rest IH]; intros i file_summaries failed_files s.
  - exists [], s. by rewrite !app_nil_r.
  - cbn [files_loop]. unfold_state.
    pose proof (_summarize_single_file_file f s) as Hfile.
    destruct (_summarize_single_file f s) as [fs s1]. cbn [fst] in Hfile.
    set (wait := if (i <? total) && negb (Qle_bool pause 0) then _ else _).
    destruct (wait s1) as [[] s2].
    set (failed1 := if decide (fs_status fs <> StatusSuccess)
                    then failed_files ++ [f_relative f] else failed_files).
    destruct (IH (i + 1) (file_summaries ++ [fs]) failed1 s2)
      as (news & s' & -> & Hfiles).
    exists (fs :: news), s'. split.
    + rewrite <- app_assoc. cbn [app]. f_equal. f_equal.
      unfold unsuccessful. cbn [zip zip_with]. rewrite filter_cons.
      cbn [snd]. subst failed1.
      destruct (decide (fs_status fs <> StatusSuccess));
        [| reflexivity].
      rewrite !fmap_cons, <- app_assoc. reflexivity.
    + rewrite !fmap_cons, Hfile, Hfiles. reflexivity.
Qed.

(** When every file extracts to blank text, the loop makes no call. *)
Lemma files_loop_blank pause total files :
  (forall f e, f ∈ files ->
     truthy (strip (extractor_extract_file (f_path f) e).1) = false) ->
  forall i file_summaries failed_files s,
    exists s',
      files_loop pause total i files file_summaries failed_files s
      = ((file_summaries ++ (empty_summary <$> files),
          failed_files ++ (f_relative <$> files)), s')
      /\ calls s' = calls s.
Proof.
  induction files as [| f rest IH]; intros Hblank i file_summaries
    failed_files s.
  - exists s. by rewrite !app_nil_r.
  - cbn [files_loop]. unfold_state.
    destruct (_summarize_single_file_blank f s) as (s1 & -> & Hcalls1).
    { apply Hblank. left. }
    set (wait := if (i <? total) && negb (Qle_bool pause 0) then _ else _).
    assert (calls (wait s1).2 = calls s1) as Hwait.
    { subst wait. destruct (_ && _); reflexivity. }
    destruct (wait s1) as [[] s2]. cbn [snd] in Hwait.
    cbn [empty_summary fs_status].
    rewrite decide_True by discriminate.
    assert (forall f' e, f' ∈ rest ->
              truthy (strip (extractor_extract_file (f_path f') e).1) = false)
      as Hrest by (intros f' e Hf'; apply Hblank; by right).
    destruct (IH Hrest (i + 1) (file_summaries ++ [empty_summary f])
                (failed_files ++ [f_relative f]) s2) as (s' & -> & Hcalls).
    exists s'. split.
    + rewrite !fmap_cons, <- !app_assoc. reflexivity.
    + by rewrite Hcalls, Hwait.
Qed.

Lemma _aggregate_summaries_none file_summaries s :
  successful_summaries file_summaries = [] ->
  _aggregate_summaries file_summaries s = (None, s).
Proof. intros H. unfold _aggregate_summaries. by rewrite H. Qed.

Lemma count_success_nonneg file_summaries :
  0 <= count_success file_summaries.
Proof. unfold count_success. lia. Qed.

(** The result of the engine carries the name and the description that
    [get_strategy_info] reports for its strategy, for the empty result
    as well; when the folder does not exist the engine raises the
    strategy's [ValueError] before anything is extracted or sent. *)
Theorem engine_result_names_its_strategy (self : SummarizationEngine)
    (folder_path : str) (recursive : bool) (pause_between_files : Q)
    (s : StrategyState) :
  if folder_is_dir folder_path then
    exists r s',
      engine_summarize_folder self folder_path recursive
        pause_between_files s = (inr r, s')
      /\ strategy (folder_metadata r) = (get_strategy_info self).1
      /\ strategy_description (folder_metadata r)
         = (get_strategy_info self).2
  else
    engine_summarize_folder self folder_path recursive pause_between_files s
    = (inl (Raised ValueError (u "Папка не найдена: " ++ folder_path)), s).
Proof.
  unfold engine_summarize_folder, strategy_summarize_folder,
    get_strategy_info.
  cbn [fst snd].
  destruct (_strategy self) as [| min_files];
    cbn [get_strategy_name get_strategy_description].
  - unfold simple_summarize_folder. unfold_state.
    destruct (folder_is_dir folder_path); cbn [negb]; [| reflexivity].
    fold (target_files folder_path recursive).
    destruct (target_files folder_path recursive) as [| f rest].
    { eexists _, _. split; [reflexivity |].
      cbn [simple_build_empty_result folder_metadata strategy
           strategy_description]. split; reflexivity. }
    destruct (files_loop _ _ _ _ _ _ _) as [[file_summaries failed_files] s1].
    eexists _, _. split; [reflexivity |].
    cbn [simple_build_result folder_metadata strategy strategy_description].
    split; reflexivity.
  - unfold hierarchical_summarize_folder. unfold_state.
    destruct (folder_is_dir folder_path); cbn [negb]; [| reflexivity].
    fold (target_files folder_path recursive).
    destruct (target_files folder_path recursive) as [| f rest].
    { eexists _, _. split; [reflexivity |].
      cbn [hierarchical_build_empty_result folder_metadata strategy
           strategy_description]. split; reflexivity. }
    destruct (files_loop _ _ _ _ _ _ _) as [[file_summaries failed_files] s1].
    destruct (if count_success file_summaries >=? min_files then _ else _)
      as [ov s2].
    eexists _, _. split; [reflexivity |].
    cbn [hierarchical_build_result folder_metadata strategy
         strategy_description].
    split; reflexivity.
Qed.

(** A folder run of either strategy names each file summary after its
    target file, in the order of the target files; [failed] lists, in
    that order, the relative paths of exactly the files whose summary
    did not succeed, and [processed] and the length of [failed] add up
    to [total_files]. *)
Theorem failed_lists_unsuccessful_files (strategy : Strategy)
    (folder_path : str) (recursive : bool) (pause_between_files : Q)
    (s : StrategyState) :
  folder_is_dir folder_path = true ->
  let targets := target_files folder_path recursive in
  exists r s',
    strategy_summarize_folder strategy folder_path recursive
      pause_between_files s = (inr r, s')
    /\ fs_file <$> file_summaries r = f_path <$> targets
    /\ failed (folder_metadata r)
       = f_relative <$> unsuccessful targets (file_summaries r)
    /\ processed (folder_metadata r)
       + Z.of_nat (length (failed (folder_metadata r)))
       = total_files (folder_metadata r).
Proof.
  intros Hdir targets.
  unfold strategy_summarize_folder, simple_summarize_folder,
    hierarchical_summarize_folder.
  rewrite Hdir. cbn [negb]. fold (target_files folder_path recursive).
  fold targets.
  destruct strategy as [| min_files];
    (destruct targets as [| f rest] eqn:Htargets;
     [eexists _, _; split; [reflexivity |];
      split; [reflexivity |]; split; reflexivity |]);
    unfold_state;
    destruct (files_loop_failed pause_between_files
                (Z.of_nat (length (f :: rest))) (f :: rest) 1 [] [] s)
      as (news & s1 & -> & Hfiles);
    cbn [app];
    assert (length (f :: rest) = length news) as Hlen
      by (rewrite <- (length_fmap f_path), <- Hfiles;
          apply length_fmap).
  - eexists _, _. split; [reflexivity |].
    cbn [simple_build_result folder_metadata file_summaries failed
         processed total_files].
    split; [exact Hfiles |]. split; [reflexivity |].
    rewrite length_fmap. by apply unsuccessful_count.
  - destruct (if count_success news >=? min_files then _ else _)
      as [ov s2].
    eexists _, _. split; [reflexivity |].
    cbn [hierarchical_build_result folder_metadata file_summaries failed
         processed total_files].
    split; [exact Hfiles |]. split; [reflexivity |].
    rewrite length_fmap. by apply unsuccessful_count.
Qed.

(** The simple strategy never builds an overview and never asks the
    client for an aggregation: it calls the client once for every file
    whose text is not blank, always at temperature 0.3. *)
Theorem simple_strategy_never_aggregates (folder_path : str)
    (recursive : bool) (pause_between_files : Q) (s : StrategyState) :
  folder_is_dir folder_path = true ->
  exists r s' new,
    simple_summarize_folder folder_path recursive pause_between_files s
    = (inr r, s')
    /\ overview r = None
    /\ calls s' = calls s ++ new
    /\ Forall (fun c => c.2 = (3 # 10)%Q) new
    /\ length new
       = length (filter (fun fs => fs_status fs <> StatusEmpty)
                   (file_summaries r)).
Proof.
  intros Hdir. unfold simple_summarize_folder.
  rewrite Hdir. cbn [negb]. fold (target_files folder_path recursive).
  destruct (target_files folder_path recursive) as [| f rest].
  { exists (simple_build_empty_result folder_path), s, [].
    split; [reflexivity |]. split; [reflexivity |].
    rewrite app_nil_r. split; [reflexivity |].
    split; [constructor | reflexivity]. }
  unfold_state.
  destruct (files_loop_spec extractor_extract_file client_summarize sleep
              pause_between_files (Z.of_nat (length (f :: rest)))
              (f :: rest) 1 [] [] s)
    as (news & newf & newc & s1 & -> & _ & _ & Hcalls & Hlen & Htemp).
  cbn [app]. eexists _, s1, newc. split; [reflexivity |].
  cbn [simple_build_result overview file_summaries].
  split; [reflexivity |]. split; [exact Hcalls |].
  split; [exact Htemp | exact Hlen].
Qed.

(** Whatever the minimum of a hierarchical strategy (also zero or
    negative), a run over a folder with target files has an overview
    exactly when at least one file summary succeeded and the number of
    successes reaches the minimum; the client is called once per file
    whose text is not blank and once more exactly when there is an
    overview. *)
Theorem hierarchical_overview_any_minimum (min_files_for_aggregation : Z)
    (folder_path : str) (recursive : bool) (pause_between_files : Q)
    (s : StrategyState) :
  folder_is_dir folder_path = true ->
  target_files folder_path recursive <> [] ->
  exists r s' new,
    hierarchical_summarize_folder min_files_for_aggregation folder_path
      recursive pause_between_files s = (inr r, s')
    /\ (is_Some (overview r)
        <-> 1 <= count_success (file_summaries r)
            /\ min_files_for_aggregation
               <= count_success (file_summaries r))
    /\ calls s' = calls s ++ new
    /\ length new
       = (length (filter (fun fs => fs_status fs <> StatusEmpty)
                    (file_summaries r))
          + match overview r with Some _ => 1 | None => 0 end)%nat.
Proof.
  intros Hdir Htargets. unfold hierarchical_summarize_folder.
  rewrite Hdir. cbn [negb]. fold (target_files folder_path recursive).
  destruct (target_files folder_path recursive) as [| f rest]; [done |].
  unfold_state.
  destruct (files_loop_spec extractor_extract_file client_summarize sleep
              pause_between_files (Z.of_nat (length (f :: rest)))
              (f :: rest) 1 [] [] s)
    as (news & newf & newc & s1 & -> & _ & Hpresent & Hcalls & Hlen & _).
  cbn [app]. pose proof (count_success_nonneg news) as Hnonneg.
  destruct (Z.geb_spec (count_success news) min_files_for_aggregation)
    as [Hge | Hlt].
  - destruct (decide (1 <= count_success news)) as [Hone | Hzero].
    + destruct (_aggregate_summaries_spec client_summarize path_name news s1
                  Hpresent Hone)
        as (result & s2 & _ & Hcalls2 & -> & Hsome).
      eexists _, s2, (newc ++ [_]). split; [reflexivity |].
      cbn [hierarchical_build_result overview file_summaries].
      split; [split; [lia | intros _; exact Hsome] |].
      split; [by rewrite Hcalls2, Hcalls, app_assoc |].
      rewrite length_app, Hlen. cbn [length].
      destruct Hsome as [ov ->]. reflexivity.
    + rewrite _aggregate_summaries_none.
      2: { rewrite successful_summaries_present by done.
           apply nil_length_inv. unfold count_success in Hzero, Hnonneg.
           lia. }
      eexists _, s1, newc. split; [reflexivity |].
      cbn [hierarchical_build_result overview file_summaries].
      split; [split; [by intros [? [=]] | lia] |].
      split; [exact Hcalls | lia].
  - eexists _, s1, newc. split; [reflexivity |].
    cbn [hierarchical_build_result overview file_summaries].
    split; [split; [by intros [? [=]] | lia] |].
    split; [exact Hcalls | lia].
Qed.

(** When the text of every target file is blank (the extractor returns
    the empty string for a file it could not read), a folder run of
    either strategy never calls the client: every file summary has the
    status empty, [processed] is 0, [failed] lists every target file
    and, when there are target files, there is no overview whatever
    the minimum. *)
Theorem blank_folder_never_calls_client (strategy : Strategy)
    (folder_path : str) (recursive : bool) (pause_between_files : Q)
    (s : StrategyState) :
  folder_is_dir folder_path = true ->
  (forall f e, f ∈ target_files folder_path recursive ->
     truthy (strip (extractor_extract_file (f_path f) e).1) = false) ->
  let targets := target_files folder_path recursive in
  exists r s',
    strategy_summarize_folder strategy folder_path recursive
      pause_between_files s = (inr r, s')
    /\ calls s' = calls s
    /\ file_summaries r = empty_summary <$> targets
    /\ processed (folder_metadata r) = 0
    /\ failed (folder_metadata r) = f_relative <$> targets
    /\ (targets <> [] -> overview r = None).
Proof.
  intros Hdir Hblank targets.
  unfold strategy_summarize_folder, simple_summarize_folder,
    hierarchical_summarize_folder.
  rewrite Hdir. cbn [negb]. fold (target_files folder_path recursive).
  fold targets. fold targets in Hblank.
  destruct strategy as [| min_files];
    (destruct targets as [| f rest] eqn:Htargets;
     [eexists _, _; split; [reflexivity |];
      split; [reflexivity |]; split; [reflexivity |];
      split; [reflexivity |]; split; [reflexivity | done] |]);
    unfold_state;
    destruct (files_loop_blank pause_between_files
                (Z.of_nat (length (f :: rest))) (f :: rest) Hblank 1 [] [] s)
      as (s1 & -> & Hcalls);
    cbn [app].
  - eexists _, _. split; [reflexivity |].
    cbn [simple_build_result folder_metadata file_summaries failed
         processed overview].
    split; [exact Hcalls |]. split; [reflexivity |].
    split; [apply count_success_all_empty |]. split; reflexivity.
  - rewrite count_success_all_empty.
    assert (exists s2,
              (if 0 >=? min_files
               then _aggregate_summaries (empty_summary <$> f :: rest)
               else mret None) s1 = (None, s2) /\ calls s2 = calls s1)
      as (s2 & Hov & Hcalls2).
    { destruct (0 >=? min_files).
      - rewrite _aggregate_summaries_none
          by apply successful_summaries_all_empty.
        by exists s1.
      - by exists s1. }
    unfold_state. rewrite Hov.
    eexists _, _. split; [reflexivity |].
    cbn [hierarchical_build_result folder_metadata file_summaries failed
         processed overview].
    split; [by rewrite Hcalls2 |]. split; [reflexivity |].
    split; [apply count_success_all_empty |]. split; reflexivity.
Qed.

End FolderRuns.

Lemma failed_lists_unsuccessful_files_witness :
  exists r s',
    strategy_summarize_folder
      (stored_text [(u "docs/a.pdf", u "Договор"); (u "docs/b.PNG", u "Счёт")])
      supported_extensions scripted_client (fun _ => true)
      (fun _ _ => two_documents) name_in_docs (fun _ script => script)
      (HierarchicalSummarizationStrategy 2) (u "docs") true 2%Q
      (mkStrategyState [summarized (u "Сводка A")] [])
    = (inr r, s')
    /\ failed (folder_metadata r) = [u "b.PNG"]
    /\ processed (folder_metadata r) = 1.
Proof.
  destruct (failed_lists_unsuccessful_files
              (stored_text [(u "docs/a.pdf", u "Договор");
                            (u "docs/b.PNG", u "Счёт")])
              supported_extensions scripted_client (fun _ => true)
              (fun _ _ => two_documents) name_in_docs
              (fun _ script => script)
              (HierarchicalSummarizationStrategy 2) (u "docs") true 2%Q
              (mkStrategyState [summarized (u "Сводка A")] []) eq_refl)
    as (r & s' & Hrun & _).
  exists r, s'. split; [exact Hrun |].
  vm_compute in Hrun. injection Hrun as <- <-.
  split; vm_compute; reflexivity.
Defined.

Lemma simple_strategy_never_aggregates_witness :
  exists r s',
    simple_run two_documents three_answers = (inr r, s')
    /\ overview r = None
    /\ map snd (calls s') = [(3 # 10)%Q; (3 # 10)%Q].
Proof.
  destruct (simple_strategy_never_aggregates
              (stored_text [(u "docs/a.pdf", u "Договор");
                            (u "docs/b.PNG", u "Счёт")])
              supported_extensions scripted_client (fun _ => true)
              (fun _ _ => two_documents) (fun _ script => script)
              (u "docs") true 2%Q (mkStrategyState three_answers [])
              eq_refl)
    as (r & s' & new & Hrun & Hov & _).
  exists r, s'. split; [exact Hrun |]. split; [exact Hov |].
  vm_compute in Hrun. injection Hrun as <- <-. vm_compute. reflexivity.
Defined.

Lemma hierarchical_overview_any_minimum_witness :
  exists r s',
    hierarchical_run two_documents 0 [] = (inr r, s')
    /\ overview r = None
    /\ length (calls s') = 2%nat.
Proof.
  destruct (hierarchical_overview_any_minimum
              (stored_text [(u "docs/a.pdf", u "Договор");
                            (u "docs/b.PNG", u "Счёт")])
              supported_extensions scripted_client (fun _ => true)
              (fun _ _ => two_documents) name_in_docs
              (fun _ script => script) 0 (u "docs") true 2%Q
              (mkStrategyState [] []))
    as (r & s' & new & Hrun & _); [reflexivity | by vm_compute |].
  exists r, s'. split; [exact Hrun |].
  vm_compute in Hrun. injection Hrun as <- <-.
  split; vm_compute; reflexivity.
Defined.

Lemma blank_folder_never_calls_client_witness :
  exists r s',
    strategy_summarize_folder (stored_text []) supported_extensions
      scripted_client (fun _ => true) (fun _ _ => two_documents)
      name_in_docs (fun _ script => script)
      (HierarchicalSummarizationStrategy 0) (u "docs") true 2%Q
      (mkStrategyState three_answers [])
    = (inr r, s')
    /\ calls s' = []
    /\ failed (folder_metadata r) = [u "a.pdf"; u "b.PNG"]
    /\ overview r = None.
Proof.
  destruct (blank_folder_never_calls_client (stored_text [])
              supported_extensions scripted_client (fun _ => true)
              (fun _ _ => two_documents) name_in_docs
              (fun _ script => script)
              (HierarchicalSummarizationStrategy 0) (u "docs") true 2%Q
              (mkStrategyState three_answers []))
    as (r & s' & Hrun & Hcalls & _ & _ & Hfailed & Hov);
    [reflexivity | intros f e _; reflexivity |].
  exists r, s'. split; [exact Hrun |]. split; [exact Hcalls |].
  split; [rewrite Hfailed; vm_compute; reflexivity |].
  apply Hov. by vm_compute.
Defined.

(** ** Pauses between files *)

Section Pauses.

Context {S : Type}.
Variable extractor_extract_file : str -> State S str.
Variable extractor_supported_extensions : list str.
Variable client_summarize : str -> Q -> State S ModelRequestOutcome.
Variable folder_is_dir : str -> bool.
Variable glob : str -> bool -> list File.
Variable path_name : str -> str.
Variable sleep : Q -> S -> S.

(** The world together with the pauses taken so far: [time.sleep]
    records its argument, the extractor and the client leave the record
    alone. *)
Definition unrecorded {A : Type} (m : State S A) : State (S * list Q) A :=
  fun w => let (a, e) := m w.1 in (a, (e, w.2)).

Definition recording_sleep (seconds : Q) (w : S * list Q) : S * list Q :=
  (sleep seconds w.1, w.2 ++ [seconds]).

Definition pauses (s : StrategyState (S := S * list Q)) : list Q :=
  (env s).2.

Local Abbreviation extractor' :=
  (fun path => unrecorded (extractor_extract_file path)).
Local Abbreviation client' :=
  (fun text temperature => unrecorded (client_summarize text temperature)).
Local Abbreviation _summarize_single_file :=
  (_summarize_single_file extractor' client').
Local Abbreviation files_loop :=
  (files_loop extractor' client' recording_sleep).
Local Abbreviation target_files :=
  (target_files extractor_supported_extensions glob).
Local Abbreviation _aggregate_summaries :=
  (_aggregate_summaries client' path_name).
Local Abbreviation strategy_summarize_folder :=
  (strategy_summarize_folder extractor' extractor_supported_extensions
     client' folder_is_dir glob path_name recording_sleep).

Lemma _summarize_single_file_pauses file_path s :
  pauses (_summarize_single_file file_path s).2 = pauses s.
Proof.
  unfold _summarize_single_file, extract, call_client, unrecorded, pauses.
  unfold_state.
  destruct (extractor_extract_file (f_path file_path) (env s).1)
    as [text e].
  destruct (truthy (strip text)); cbn [negb]; [| reflexivity].
  cbn [env fst snd].
  destruct (client_summarize text (3 # 10)%Q e) as [result e'].
  by destruct (success result && truthy_opt (summary result)).
Qed.

Lemma _aggregate_summaries_pauses file_summaries s :
  pauses (_aggregate_summaries file_summaries s).2 = pauses s.
Proof.
  unfold _aggregate_summaries, call_client, unrecorded, pauses.
  unfold_state.
  destruct (successful_summaries file_summaries) as [| fs rest];
    [reflexivity |].
  destruct (client_summarize _ (4 # 10)%Q (env s).1) as [result e'].
  by destruct (success result && truthy_opt (summary result)).
Qed.

Lemma files_loop_pauses pause total files :
  forall i file_summaries failed_files s,
    i + Z.of_nat (length files) = total + 1 ->
    pauses (files_loop pause total i files file_summaries failed_files s).2
    = pauses s
        ++ (if negb (Qle_bool pause 0)
            then replicate (length files - 1) pause else []).
Proof.
  induction files as [| f rest IH];
    intros i file_summaries failed_files s Hi.
  - cbn [files_loop length]. unfold_state. cbn [snd].
    destruct (negb _); by rewrite app_nil_r.
  - cbn [files_loop]. unfold_state.
    pose proof (_summarize_single_file_pauses f s) as Hone.
    destruct (_summarize_single_file f s) as [fs s1]. cbn [snd] in Hone.
    cbn [length] in Hi.
    destruct rest as [| g rest].
    + rewrite (proj2 (Z.ltb_ge i total)) by (cbn [length] in Hi; lia).
      cbn [andb]. cbn [files_loop]. unfold_state. cbn [snd length].
      rewrite Hone. destruct (negb _); by rewrite app_nil_r.
    + rewrite (proj2 (Z.ltb_lt i total)) by (cbn [length] in Hi; lia).
      cbn [andb].
      destruct (negb (Qle_bool pause 0)) eqn:Hpos.
      * unfold time_sleep at 1.
        rewrite IH by lia.
        unfold pauses, recording_sleep. cbn [env snd].
        fold (pauses s1). rewrite Hone, <- app_assoc.
        replace (length (f :: g :: rest) - 1)%nat
          with (Datatypes.S (length (g :: rest) - 1))
          by (cbn [length]; lia).
        reflexivity.
      * rewrite IH by lia. by rewrite Hone.
Qed.

(** A folder run of either strategy pauses between files and nowhere
    else: with [n] target files and a positive pause, [time.sleep] is
    called [n - 1] times by the strategy, each time for the pause
    asked; with a pause of zero or less, with a single target file,
    with none, or when the folder does not exist, it is not called. *)
Theorem pauses_between_files (strategy : Strategy) (folder_path : str)
    (recursive : bool) (pause_between_files : Q)
    (s : StrategyState (S := S * list Q)) :
  pauses (strategy_summarize_folder strategy folder_path recursive
            pause_between_files s).2
  = pauses s
      ++ (if folder_is_dir folder_path
             && negb (Qle_bool pause_between_files 0)
          then replicate
                 (length (target_files folder_path recursive) - 1)
                 pause_between_files
          else []).
Proof.
  unfold strategy_summarize_folder, simple_summarize_folder,
    hierarchical_summarize_folder.
  fold (target_files folder_path recursive).
  destruct (folder_is_dir folder_path); cbn [negb andb].
  2: { destruct strategy; unfold_state; cbn [snd]; by rewrite app_nil_r. }
  pose proof (files_loop_pauses pause_between_files
                (Z.of_nat (length (target_files folder_path recursive)))
                (target_files folder_path recursive) 1 [] [] s) as Hloop.
  destruct (target_files folder_path recursive) as [| f rest].
  { destruct strategy; unfold_state; cbn [snd length];
      destruct (negb _); by rewrite app_nil_r. }
  specialize (Hloop ltac:(lia)).
  destruct strategy as [| min_files]; unfold_state.
  - destruct (files_loop _ _ _ _ _ _ _) as [[file_summaries failed_files] s1].
    exact Hloop.
  - destruct (files_loop _ _ _ _ _ _ _) as [[file_summaries failed_files] s1].
    cbn [snd] in Hloop.
    destruct (count_success file_summaries >=? min_files).
    + pose proof (_aggregate_summaries_pauses file_summaries s1) as Hagg.
      destruct (_aggregate_summaries file_summaries s1) as [ov s2].
      cbn [snd] in Hagg |- *. by rewrite Hagg.
    + exact Hloop.
Qed.

End Pauses.

Example pauses_between_three_files :
  pauses
    (strategy_summarize_folder
       (fun path =>
          unrecorded
            (stored_text [(u "docs/a.pdf", u "Договор");
                          (u "docs/b.PNG", u "Счёт")] path))
       supported_extensions
       (fun text temperature => unrecorded (scripted_client text temperature))
       (fun _ => true) (fun _ _ => two_documents) name_in_docs
       (recording_sleep (fun _ script => script))
       SimpleSummarizationStrategy (u "docs") true 2%Q
       (mkStrategyState (three_answers, []) [])).2
  = [2%Q].
Proof. vm_compute. reflexivity. Qed.

(** ** Logging level and report *)

(** A configured logging level that passes validation is honoured only
    for ["info"]: for ["debug"] and also for ["warning"], ["error"] and
    ["critical"] the logger and its file and console handlers get the
    threshold DEBUG. *)
Theorem validated_level_threshold (set_repr : list str -> str)
    (config : AppConfig) (v : str) :
  validate_level set_repr v = inr (logging_level config) ->
  logging_level config = lower v
  /\ (logging_level config = u "info"
      /\ factory_logger_level config = INFO
      \/ logging_level config
           ∈ [u "debug"; u "warning"; u "error"; u "critical"]
         /\ factory_logger_level config = DEBUG).
Proof.
  unfold validate_level, factory_logger_level.
  destruct (bool_decide (lower v ∈ _)) eqn:Hin; [| done].
  intros [= Heq]. split; [done |].
  apply bool_decide_eq_true in Hin. rewrite Heq in Hin.
  repeat (apply elem_of_cons in Hin as [-> | Hin]);
    [right | left | right | right | right | by apply elem_of_nil in Hin];
    (split; [| vm_compute; reflexivity]);
    first [reflexivity
          | apply (bool_decide_unpack _); vm_compute; exact I].
Qed.

Lemma validated_level_threshold_witness :
  factory_logger_level
    (mkAppConfig (u "error") (u "logs") (u "sk-or-v1-abc") 5%Q (u "simple")
       2 (u "rus+eng"))
  = DEBUG.
Proof.
  destruct (validated_level_threshold (fun _ => [])
              (mkAppConfig (u "error") (u "logs") (u "sk-or-v1-abc") 5%Q
                 (u "simple") 2 (u "rus+eng")) (u "ERROR")) as [_ [[Hinfo _] | [_ Hdebug]]].
  - vm_compute. reflexivity.
  - vm_compute in Hinfo. discriminate.
  - exact Hdebug.
Defined.

Lemma truthy_app_l (a b : str) : truthy a = true -> truthy (a ++ b) = true.
Proof. by destruct a. Qed.

Lemma aggregation_failed_truthy (result : ModelRequestOutcome) :
  truthy (aggregation_failed result) = true.
Proof.
  unfold aggregation_failed. apply truthy_app_l. vm_compute. reflexivity.
Qed.

Section Report.

Context {S : Type}.
Variable extractor_extract_file : str -> State S str.
Variable extractor_supported_extensions : list str.
Variable client_summarize : str -> Q -> State S ModelRequestOutcome.
Variable folder_is_dir : str -> bool.
Variable glob : str -> bool -> list File.
Variable path_name : str -> str.
Variable sleep : Q -> S -> S.

Local Abbreviation target_files :=
  (target_files extractor_supported_extensions glob).
Local Abbreviation hierarchical_summarize_folder :=
  (hierarchical_summarize_folder extractor_extract_file
     extractor_supported_extensions client_summarize folder_is_dir glob
     path_name sleep).

(** The report of a hierarchical run over a folder with target files:
    when the successes reach the minimum (and there is at least one),
    the report shows the overview, which is never empty; otherwise it
    says that the overview is missing and names the strategy 'simple',
    although the result carries the strategy name ["hierarchical"]. *)
Theorem hierarchical_report_overview (min_files_for_aggregation : Z)
    (folder_path : str) (recursive : bool) (pause_between_files : Q)
    (s : StrategyState) :
  folder_is_dir folder_path = true ->
  target_files folder_path recursive <> [] ->
  exists r s',
    hierarchical_summarize_folder min_files_for_aggregation folder_path
      recursive pause_between_files s = (inr r, s')
    /\ strategy (folder_metadata r) = "hierarchical"
    /\ (if decide (Z.max 1 min_files_for_aggregation
                   <= count_success (file_summaries r))
        then exists ov,
               overview r = Some ov
               /\ save_results_overview (overview r)
                  = u "ОБЩИЙ ОБЗОР СОДЕРЖИМОГО:" ++ nl
                      ++ replicate 70 61%N ++ nl ++ nl ++ ov ++ nl ++ nl
        else save_results_overview (overview r)
             = u "ОБЩИЙ ОБЗОР: отсутствует (стратегия 'simple')"
                 ++ nl ++ nl).
Proof.
  intros Hdir Htargets. unfold hierarchical_summarize_folder.
  rewrite Hdir. cbn [negb]. fold (target_files folder_path recursive).
  destruct (target_files folder_path recursive) as [| f rest]; [done |].
  unfold_state.
  destruct (files_loop_spec extractor_extract_file client_summarize sleep
              pause_between_files (Z.of_nat (length (f :: rest)))
              (f :: rest) 1 [] [] s)
    as (news & newf & newc & s1 & -> & _ & Hpresent & _).
  cbn [app]. pose proof (count_success_nonneg news) as Hnonneg.
  destruct (Z.geb_spec (count_success news) min_files_for_aggregation)
    as [Hge | Hlt].
  - destruct (decide (1 <= count_success news)) as [Hone | Hzero].
    + destruct (_aggregate_summaries_spec client_summarize path_name news s1
                  Hpresent Hone)
        as (result & s2 & _ & _ & -> & _).
      eexists _, s2. split; [reflexivity |].
      cbn [hierarchical_build_result overview file_summaries
           folder_metadata strategy].
      split; [reflexivity |]. rewrite decide_True by lia.
      unfold save_results_overview.
      destruct (success result && truthy_opt (summary result)) eqn:Hok.
      * apply andb_prop in Hok as [_ Htruthy].
        destruct (summary result) as [ov |]; [| discriminate].
        exists ov. split; [reflexivity |]. by rewrite Htruthy.
      * eexists. split; [reflexivity |]. cbn [truthy_opt default].
        by rewrite aggregation_failed_truthy.
    + rewrite _aggregate_summaries_none.
      2: { rewrite successful_summaries_present by done.
           apply nil_length_inv. unfold count_success in Hzero, Hnonneg.
           lia. }
      eexists _, s1. split; [reflexivity |].
      cbn [hierarchical_build_result overview file_summaries
           folder_metadata strategy].
      split; [reflexivity |]. rewrite decide_False by lia. reflexivity.
  - eexists _, s1. split; [reflexivity |].
    cbn [hierarchical_build_result overview file_summaries
         folder_metadata strategy].
    split; [reflexivity |]. rewrite decide_False by lia. reflexivity.
Qed.

End Report.

Lemma hierarchical_report_overview_witness :
  exists r s',
    hierarchical_run two_documents 2 [summarized (u "Сводка A")]
    = (inr r, s')
    /\ strategy (folder_metadata r) = "hierarchical"
    /\ save_results_overview (overview r)
       = u "ОБЩИЙ ОБЗОР: отсутствует (стратегия 'simple')" ++ nl ++ nl.
Proof.
  destruct (hierarchical_report_overview
              (stored_text [(u "docs/a.pdf", u "Договор");
                            (u "docs/b.PNG", u "Счёт")])
              supported_extensions scripted_client (fun _ => true)
              (fun _ _ => two_documents) name_in_docs
              (fun _ script => script) 2 (u "docs") true 2%Q
              (mkStrategyState [summarized (u "Сводка A")] []))
    as (r & s' & Hrun & Hname & _); [reflexivity | by vm_compute |].
  exists r, s'. split; [exact Hrun |]. split; [exact Hname |].
  vm_compute in Hrun. injection Hrun as <- <-. vm_compute. reflexivity.
Defined.

(** ** Exhausted retries *)

Lemma hex_digits_chars (fuel : nat) :
  forall n acc,
    Forall (fun c => (48 <= c <= 57 \/ 97 <= c <= 120)%N) acc ->
    Forall (fun c => (48 <= c <= 57 \/ 97 <= c <= 120)%N)
      (hex_digits fuel n acc).
Proof.
  induction fuel as [| fuel IH]; intros n acc Hacc; [exact Hacc |].
  cbn [hex_digits].
  assert (Forall (fun c => (48 <= c <= 57 \/ 97 <= c <= 120)%N)
            (hex_digit (n mod 16) :: acc)) as Hacc'.
  { constructor; [| exact Hacc]. unfold hex_digit.
    pose proof (N.mod_lt n 16 ltac:(lia)) as Hd.
    set (d := (n mod 16)%N) in *. clearbody d.
    destruct (N.ltb_spec d 10); lia. }
  destruct (n <? 16)%N; [exact Hacc' | by apply IH].
Qed.

(** An address printed by ['%#x'] consists of digits and of the letters
    [a] to [f] and [x]. *)
Lemma hex_of_N_chars (n : N) :
  Forall (fun c => (48 <= c <= 57 \/ 97 <= c <= 120)%N) (hex_of_N n).
Proof.
  unfold hex_of_N. apply Forall_app. split.
  - repeat constructor; lia.
  - apply hex_digits_chars. constructor.
Qed.

(** A string that starts with a character that does not occur in [hay]
    is not part of [hay]. *)
Lemma contains_absent_head (c : N) (needle hay : str) :
  head needle = Some c -> c ∉ hay -> contains needle hay = false.
Proof.
  destruct needle as [| c' needle]; [discriminate |].
  cbn [head]. intros [= ->].
  induction hay as [| b hay IH]; intros Hc; [reflexivity |].
  apply not_elem_of_cons in Hc as [Hne Hc].
  cbn [contains starts_with].
  rewrite (proj2 (N.eqb_neq c b) Hne). cbn [andb orb]. by apply IH.
Qed.

(** Absence of a character, by computation. *)
Lemma absent_char (c : N) (s : str) :
  forallb (fun b => negb (c =? b)%N) s = true -> c ∉ s.
Proof.
  induction s as [| b s IH]; [intros _; apply not_elem_of_nil |].
  cbn [forallb]. intros Hall. apply andb_prop in Hall as [Hb Hall].
  apply not_elem_of_cons. split; [| by apply IH].
  apply negb_true_iff in Hb. by apply N.eqb_neq.
Qed.

Section Exhaustion.

Context {ids : FutureIds}.
Context {W : Type}.
Variable session_post : Payload -> W -> post_result * W.
Variable time : W -> Q.
Variable sleep : Q -> W -> W.
Variable self : Client.

Local Abbreviation _request_attempt :=
  (_request_attempt session_post time sleep self).
Local Abbreviation _request := (_request session_post time sleep self).
Local Abbreviation fail_all := (fail_all session_post time sleep self).
Local Abbreviation summarize := (summarize session_post time sleep self).

(** What [_request] raises: a failure of a class that the decorator
    retries comes out wrapped in a [RetryError], after the second
    attempt; any other exception comes out as it is. *)
Lemma _request_raises prompt model temperature s e s' :
  _request prompt model temperature s = (inl e, s') ->
  (exists cause, e = RetryError cause /\ retry_if_exception_type cause = true)
  \/ retry_if_exception_type e = false.
Proof.
  unfold _request. cbn [retrying]. unfold_state.
  destruct (_request_attempt prompt model temperature s) as [[e1 | a1] s1];
    [| discriminate].
  destruct (retry_if_exception_type e1) eqn:Hretry1.
  - destruct (pause _ _ s1) as [[] s2].
    destruct (_request_attempt prompt model temperature s2)
      as [[e2 | a2] s3]; [| discriminate].
    destruct (retry_if_exception_type e2) eqn:Hretry2.
    + intros [= <- <-]. left. by exists e2.
    + intros [= <- <-]. by right.
  - intros [= <- <-]. by right.
Qed.

Lemma fail_all_raises prompt temperature models :
  forall s errors s1,
    fail_all prompt temperature models s = Some (errors, s1) ->
    Forall (fun e =>
              (exists cause,
                  e = RetryError cause
                  /\ retry_if_exception_type cause = true)
              \/ retry_if_exception_type e = false) errors.
Proof.
  induction models as [| m models IH]; intros s errors s1 Hfail.
  - cbn [fail_all] in Hfail. injection Hfail as <- <-. constructor.
  - cbn [fail_all] in Hfail.
    destruct (_request prompt m temperature s) as [[e | a] s2] eqn:Hreq;
      [| discriminate].
    destruct (fail_all prompt temperature models s2) as [[errs s3] |] eqn:Hrest;
      [| discriminate].
    injection Hfail as <- <-. constructor; [| by eapply IH].
    by eapply _request_raises.
Qed.

(** Total exhaustion after a retried failure: when every candidate
    fails and the last failure is of a class that the decorator retries
    (every network error and every HTTP error status), the error of the
    outcome is the fixed prefix followed by the text of the
    [RetryError], which gives the address of a [Future] and the class
    name of the failure in place of its message. *)
Lemma exhausted_after_retries text strategy temperature s models prompt
    truncated errors s1 cause :
  summarize_setup self text strategy = inr (models, prompt, truncated) ->
  fail_all prompt temperature models s = Some (errors, s1) ->
  last errors = Some (RetryError cause) ->
  exists o,
    summarize text strategy temperature s = (inr o, s1)
    /\ success o = false
    /\ summary o = None
    /\ md_attempted_models (metadata o) = Some models
    /\ error o
       = Some (u "Все модели недоступны. Последняя ошибка: "
                 ++ u "RetryError[<Future at " ++ hex_of_N (future_id cause)
                 ++ u " state=finished raised " ++ exn_class_name cause
                 ++ u ">]").
Proof.
  intros Hsetup Hfail Hlast.
  destruct (summarize_total_exhaustion session_post time sleep self text
              strategy temperature s models prompt truncated errors s1
              Hsetup Hfail)
    as (o & e & Hrun & Hsuccess & Hsummary & Hlast' & Herror & Hmodels).
  rewrite Hlast in Hlast'. injection Hlast' as <-.
  exists o. split; [exact Hrun |]. split; [exact Hsuccess |].
  split; [exact Hsummary |]. split; [exact Hmodels |].
  rewrite Herror. reflexivity.
Qed.

End Exhaustion.

(** C5: when every candidate model fails, [summarize] does return an
    outcome with [success] false, no summary and the attempted models in
    the metadata, but its error message does not carry the message of
    the last failure.  The failure of a request is retried once and then
    leaves [_request] wrapped in the decorator's [RetryError], and
    [str(e)] of that exception is
    ["RetryError[<Future at 0x... state=finished raised RequestException>]"]:
    for two models that answer with a server error and with "payment
    required", the error holds this text, whatever the address, and the
    message ["Credit limit exceeded (402)"] of the last failure is not
    part of it. *)
Theorem exhausted_retries_hide_the_last_failure {ids : FutureIds} :
  exists o message,
    (run_summarize (client_with ["A"; "B"] 1000) (u "text") None (3 # 10)%Q
       [server_error; server_error; payment_required; payment_required]).1
    = inr o
    /\ success o = false
    /\ summary o = None
    /\ md_attempted_models (metadata o) = Some ["A"; "B"]
    /\ error o = Some message
    /\ message
       = u "Все модели недоступны. Последняя ошибка: "
           ++ u "RetryError[<Future at "
           ++ hex_of_N
                (future_id
                   (Raised RequestException
                      (u "Credit limit exceeded (402)")))
           ++ u " state=finished raised RequestException>]"
    /\ contains (u "Credit limit exceeded (402)") message = false.
Proof.
  set (self := client_with ["A"; "B"] 1000).
  set (prompt := _prepare_prompt (u "text")).
  set (s0 := fresh [server_error; server_error; payment_required;
                    payment_required]).
  destruct (fail_all scripted_post frozen_clock no_sleep self prompt
              (3 # 10)%Q ["A"; "B"] s0) as [[errors s1] |] eqn:Hfail;
    [| vm_compute in Hfail; discriminate].
  destruct (exhausted_after_retries scripted_post frozen_clock no_sleep
              self (u "text") None (3 # 10)%Q s0 ["A"; "B"] prompt false
              errors s1
              (Raised RequestException (u "Credit limit exceeded (402)")))
    as (o & Hrun & Hsuccess & Hsummary & Hmodels & Herror);
    [vm_compute; reflexivity | exact Hfail
    | vm_compute in Hfail; injection Hfail as <- <-; reflexivity |].
  exists o. eexists. unfold run_summarize. fold self s0. rewrite Hrun.
  split; [reflexivity |]. split; [exact Hsuccess |].
  split; [exact Hsummary |]. split; [exact Hmodels |].
  split; [exact Herror |].
  split; [do 3 f_equal; vm_compute; reflexivity |].
  apply (contains_absent_head 67); [vm_compute; reflexivity |].
  apply not_elem_of_app. split.
  { apply absent_char. vm_compute. reflexivity. }
  apply not_elem_of_app. split.
  { apply absent_char. vm_compute. reflexivity. }
  apply not_elem_of_app. split.
  { intros Hin.
    pose proof (hex_of_N_chars
                  (future_id (Raised RequestException
                                (u "Credit limit exceeded (402)")))) as Hhex.
    rewrite Forall_forall in Hhex. apply Hhex in Hin. lia. }
  apply absent_char. vm_compute. reflexivity.
Qed.
